(** * PerfectPayPixGenerator: a shallow embedding of generate/qrcode_pix.py

    The program drives a Selenium browser through a checkout page.  Every
    call that leaves the Python process (the WebDriver, the file system, the
    clock, stdout, base64 and PIL) is answered by a [World]: a record of
    response functions that may depend on the whole interaction history.
    The methods of [PerfectPayPixGenerator] become computations in a reader,
    writer and exception monad over that history.

    Python exceptions are values of [Exn]; all of them are instances of
    [Exception], so [except Exception] and a bare [except:] both become
    [try_except].  Asynchronous interrupts are outside the model. *)

From Stdlib Require Import String Ascii List Bool Arith Lia.
From stdpp Require Import base option list strings gmap pretty.
Import ListNotations.

(** ** Values *)

Inductive By := By_ID | By_XPATH | By_CSS_SELECTOR.

(** A [WebElement] is a handle; two lookups of one DOM node give equal handles. *)
Definition WebElement := nat.

Definition Locator : Type := By * string.

Inductive Condition :=
| presence_of_element_located (loc : Locator)
| element_to_be_clickable (loc : Locator).

Inductive ExnClass :=
| TimeoutException | NoSuchElementException | InvalidSelectorException
| WebDriverException | OSError | IndexError | BinasciiError
| UnidentifiedImageError | UnicodeEncodeError
| Exception_.                      (* a plain [Exception(msg)] *)

Record Exn := mkExn { exn_class : ExnClass; exn_msg : string }.

(** [str(e)] *)
Definition str (e : Exn) : string := exn_msg e.

Definition Exception (msg : string) : Exn := mkExn Exception_ msg.

Inductive Res (A : Type) :=
| Ok (a : A)
| Raise (e : Exn).
Arguments Ok {A} a.
Arguments Raise {A} e.

Inductive OptionValue := OptList (l : list string) | OptBool (b : bool).

(** selenium.webdriver.chrome.options.Options *)
Record Options := mkOptions {
  arguments : list string;
  experimental_options : list (string * OptionValue)
}.

(** A decoded PIL image. *)
Record Image := mkImage { width : nat; height : nat; pixels : list Byte.byte }.

Inductive Level := INFO | ERROR.

(** ** Calls and the interaction history *)

Inductive Call :=
| webdriver_Chrome (options : Options)
| execute_script (script : string) (args : list WebElement)
| driver_get (url : string)
| wait_until (timeout : nat) (cond : Condition)
| find_element (by_ : By) (value : string)
| current_url
| save_screenshot (filename : string)
| driver_quit
| send_keys (elem : WebElement) (keys : string)
| click (elem : WebElement)
| get_attribute (elem : WebElement) (name : string)
| time_sleep (secs : nat)
| time_strftime (format : string)
| os_path_exists (path : string)
| os_makedirs (path : string)
| open_write (path : string) (data : string)
| image_save (im : Image) (filename : string)
| print (line : string)
| logging_basicConfig
| log (level : Level) (msg : string).

(** An event is a call together with whether it returned or raised. *)
Inductive Event :=
| Done (c : Call)
| Failed (c : Call).

Definition Trace := list Event.

(** ** The world outside the process *)

Record World := mkWorld {
  (* selenium *)
  w_Chrome : Trace -> Options -> Res unit;
  w_execute_script : Trace -> string -> list WebElement -> Res unit;
  w_get : Trace -> string -> Res unit;
  w_wait_until : Trace -> nat -> Condition -> Res WebElement;
  w_find_element : Trace -> By -> string -> Res WebElement;
  w_current_url : Trace -> Res string;
  w_save_screenshot : Trace -> string -> Res bool;
  w_quit : Trace -> Res unit;
  w_send_keys : Trace -> WebElement -> string -> Res unit;
  w_click : Trace -> WebElement -> Res unit;
  w_get_attribute : Trace -> WebElement -> string -> Res (option string);
  (* time, os, stdout *)
  w_strftime : Trace -> string -> string;
  w_path_exists : Trace -> string -> bool;
  w_makedirs : Trace -> string -> Res unit;
  w_open_write : Trace -> string -> string -> Res unit;
  w_print : Trace -> string -> Res unit;
  w_basicConfig : Trace -> Res unit;
  (* base64 and PIL *)
  w_b64decode : string -> Res (list Byte.byte);
  w_Image_open : list Byte.byte -> Res Image;
  (* [image.save(filename)]: the bytes the encoder writes *)
  w_image_save : Trace -> Image -> string -> Res (list Byte.byte)
}.

(** ** The monad

    A computation reads the history so far and yields a result, the events it
    added to the history and the files it wrote (later writes win).

    [written] holds the files whose content the program hands over itself:
    [open(...).write(...)] and [image.save(...)].  What a library writes on
    the program's behalf (the lines the logging FileHandler appends to the
    log file, the PNG the browser stores for [save_screenshot]) has no
    content the program determines; those writes are events of the history,
    and [files_touched] below reads the paths off it. *)

Record Out (A : Type) := mkOut {
  result : Res A;
  emitted : Trace;
  written : gmap string (list Byte.byte)
}.
Arguments mkOut {A} result emitted written.
Arguments result {A} o.
Arguments emitted {A} o.
Arguments written {A} o.

Definition M (A : Type) : Type := Trace -> Out A.

Definition ret {A} (a : A) : M A := fun _ => mkOut (Ok a) [] ∅.

Definition raise {A} (e : Exn) : M A := fun _ => mkOut (Raise e) [] ∅.

(** Run [k] after a computation that emitted [evs] and wrote [fs]. *)
Definition and_then {A} (evs : Trace) (fs : gmap string (list Byte.byte))
    (k : M A) : M A := fun h =>
  match k (h ++ evs) with
  | mkOut r evs' fs' => mkOut r (evs ++ evs') (fs' ∪ fs)
  end.

Definition bind {A B} (m : M A) (k : A -> M B) : M B := fun h =>
  match m h with
  | mkOut (Ok a) evs fs => and_then evs fs (k a) h
  | mkOut (Raise e) evs fs => mkOut (Raise e) evs fs
  end.

(** [try: body  except Exception as e: handler e] *)
Definition try_except {A} (body : M A) (handler : Exn -> M A) : M A := fun h =>
  match body h with
  | mkOut (Ok a) evs fs => mkOut (Ok a) evs fs
  | mkOut (Raise e) evs fs => and_then evs fs (handler e) h
  end.

(** [try: body  finally: cleanup] *)
Definition try_finally {A} (body : M A) (cleanup : M unit) : M A := fun h =>
  match body h with
  | mkOut r evs fs =>
      match and_then evs fs cleanup h with
      | mkOut (Ok _) evs' fs' => mkOut r evs' fs'
      | mkOut (Raise e) evs' fs' => mkOut (Raise e) evs' fs'
      end
  end.

Declare Scope py_scope.
Delimit Scope py_scope with py.
Notation "x <- c ;; k" := (bind c (fun x => k))
  (at level 100, c at next level, right associativity) : py_scope.
Notation "c ;;; k" := (bind c (fun _ => k))
  (at level 100, right associativity) : py_scope.
Local Open Scope py_scope.

(** A call that may raise: the world answers from the history so far. *)
Definition call {A} (c : Call) (resp : Trace -> Res A) : M A := fun h =>
  match resp h with
  | Ok a => mkOut (Ok a) [Done c] ∅
  | Raise e => mkOut (Raise e) [Failed c] ∅
  end.

(** A call that cannot raise. *)
Definition call_total {A} (c : Call) (resp : Trace -> A) : M A := fun h =>
  mkOut (Ok (resp h)) [Done c] ∅.

(** A call that, when it returns, has written [data] to [path]. *)
Definition call_writing (c : Call) (path : string)
    (resp : Trace -> Res (list Byte.byte)) : M unit := fun h =>
  match resp h with
  | Ok data => mkOut (Ok tt) [Done c] {[ path := data ]}
  | Raise e => mkOut (Raise e) [Failed c] ∅
  end.

(** A library call that leaves no event. *)
Definition lift {A} (r : Res A) : M A := fun _ => mkOut r [] ∅.

(** ** Python string helpers *)

(** [s.startswith(pre)] *)
Fixpoint startswith (pre s : string) : bool :=
  match pre, s with
  | EmptyString, _ => true
  | String a pre', String b s' => Ascii.eqb a b && startswith pre' s'
  | String _ _, EmptyString => false
  end.

(** [sub in s] *)
Fixpoint contains (sub s : string) : bool :=
  startswith sub s ||
  match s with
  | EmptyString => false
  | String _ s' => contains sub s'
  end.

(** [s.split(sep)] for a one-character separator *)
Fixpoint split (sep : ascii) (s : string) : list string :=
  match s with
  | EmptyString => [EmptyString]
  | String c s' =>
      if Ascii.eqb c sep then EmptyString :: split sep s'
      else match split sep s' with
           | [] => [String c EmptyString]
           | hd :: tl => String c hd :: tl
           end
  end.

(** Formatting of a possibly-[None] string inside an f-string. *)
Definition fmt (o : option string) : string :=
  match o with
  | Some s => s
  | None => "None"
  end.

(** [os.path.dirname] (posixpath) *)
Fixpoint dir_head (p : string) : string :=      (* p[: p.rfind('/') + 1] *)
  match p with
  | EmptyString => EmptyString
  | String c p' =>
      if contains "/" p' then String c (dir_head p')
      else if Ascii.eqb c "/" then "/" else EmptyString
  end.

Fixpoint all_slashes (s : string) : bool :=
  match s with
  | EmptyString => true
  | String c s' => Ascii.eqb c "/" && all_slashes s'
  end.

Fixpoint rstrip_slashes (s : string) : string :=
  match s with
  | EmptyString => EmptyString
  | String c s' =>
      match rstrip_slashes s' with
      | EmptyString => if Ascii.eqb c "/" then EmptyString else String c EmptyString
      | r => String c r
      end
  end.

Definition dirname (p : string) : string :=
  let head := dir_head p in
  if all_slashes head then head else rstrip_slashes head.

(** Truth value of an [Optional[str]] *)
Definition truthy (o : option string) : bool :=
  match o with
  | Some (String _ _) => true
  | _ => false
  end.

Definition nl : string := String (ascii_of_nat 10) EmptyString.

(** ** config/config.py *)

Record Config := mkConfig {
  perfectpay_checkout_url : option string;      (* os.getenv(...) *)
  user_agent : string
}.

Definition Config_init (env_url : option string) : Config :=
  mkConfig env_url
    "Mozilla/5.0 (Windows NT 10.0; Win64; x64) AppleWebKit/537.36 (KHTML, like Gecko) Chrome/138.0.0.0 Safari/537.36 Edg/138.0.0.0".

Definition get_perfectpay_checkout_url (c : Config) : option string :=
  perfectpay_checkout_url c.

Definition get_user_agent (c : Config) : string := user_agent c.

(** ** generate/qrcode_pix.py *)

(** The attributes of a [PerfectPayPixGenerator] that the methods read. *)
Record Self := mkSelf {
  base_url : option string;
  timeout : nat
}.

Definition remove_webdriver_script : string :=
  "Object.defineProperty(navigator, 'webdriver', {get: () => undefined})".

Definition scroll_script : string := "arguments[0].scrollIntoView(true);".
Definition click_script : string := "arguments[0].click();".

Definition basic_args : list string :=
  [ "--no-sandbox"; "--disable-dev-shm-usage"; "--disable-gpu";
    "--disable-extensions"; "--disable-logging"; "--log-level=3"; "--silent";
    "--disable-default-apps"; "--disable-background-timer-throttling";
    "--disable-background-networking";
    "--disable-backgrounding-occluded-windows";
    "--disable-renderer-backgrounding"; "--disable-features=TranslateUI";
    "--disable-ipc-flooding-protection"; "--disable-web-security";
    "--disable-features=VizDisplayCompositor"; "--enable-unsafe-swiftshader" ].

Definition _create_chrome_options (headless : bool) (ua : option string) : Options :=
  mkOptions
    ((if headless then ["--headless"] else [])
       ++ basic_args
       ++ ["--disable-blink-features=AutomationControlled"]
       ++ (if truthy ua then ["user-agent=" +:+ fmt ua] else []))
    [ ("excludeSwitches", OptList ["enable-automation"]);
      ("useAutomationExtension", OptBool false) ].

Definition pix_selectors : list string :=
  [ "//a[contains(@class, 'btn-primary') and contains(text(), 'Abrir')]";
    "//a[contains(@href, '/payments/thanks')]";
    "//a[contains(., 'Abrir') and contains(., 'Pix') and contains(., 'já gerado')" ].

Definition screenshot_path (filename timestamp : string) : string :=
  "images/prints/" +:+ filename +:+ "_" +:+ timestamp +:+ ".png".

Definition qrcode_path (cpf timestamp : string) : string :=
  "images/qrcode_pix_" +:+ cpf +:+ "_" +:+ timestamp +:+ ".png".

Definition checkout_url (base : option string) (email name phone : string) : string :=
  fmt base +:+ "?email=" +:+ email +:+ "&name=" +:+ name +:+ "&phone=" +:+ phone.

Section Generator.

Variable w : World.

(** *** Primitive operations *)

(** [self.logger.info(msg)] and [self.logger.error(msg)].  The handlers that
    [_setup_logging] installs format the record and append it to
    [logs/generate_qrcode_pix.log] and to stdout; the logging module keeps a
    handler's own errors to itself, so the call returns.  The event stands
    for the record and for the line appended to the log file. *)
Definition logger_info (msg : string) : M unit :=
  call_total (log INFO msg) (fun _ => tt).
Definition logger_error (msg : string) : M unit :=
  call_total (log ERROR msg) (fun _ => tt).
Definition sleep (secs : nat) : M unit :=
  call_total (time_sleep secs) (fun _ => tt).
Definition strftime (format : string) : M string :=
  call_total (time_strftime format) (fun tr => w_strftime w tr format).
Definition path_exists (path : string) : M bool :=
  call_total (os_path_exists path) (fun tr => w_path_exists w tr path).
Definition makedirs (path : string) : M unit :=
  call (os_makedirs path) (fun tr => w_makedirs w tr path).
Definition py_print (line : string) : M unit :=
  call (print line) (fun tr => w_print w tr line).

Definition Chrome (options : Options) : M unit :=
  call (webdriver_Chrome options) (fun tr => w_Chrome w tr options).
Definition driver_execute_script (script : string) (args : list WebElement) : M unit :=
  call (execute_script script args) (fun tr => w_execute_script w tr script args).
Definition get (url : string) : M unit :=
  call (driver_get url) (fun tr => w_get w tr url).
Definition until (tmo : nat) (cond : Condition) : M WebElement :=
  call (wait_until tmo cond) (fun tr => w_wait_until w tr tmo cond).
Definition driver_find_element (by_ : By) (value : string) : M WebElement :=
  call (find_element by_ value) (fun tr => w_find_element w tr by_ value).
Definition driver_current_url : M string :=
  call current_url (w_current_url w).
(** [self.driver.save_screenshot(filename)]: the browser writes the PNG to
    [filename]; it returns [False] on an I/O error. *)
Definition driver_save_screenshot (filename : string) : M bool :=
  call (save_screenshot filename) (fun tr => w_save_screenshot w tr filename).
Definition quit : M unit :=
  call driver_quit (w_quit w).
Definition elem_send_keys (e : WebElement) (keys : string) : M unit :=
  call (send_keys e keys) (fun tr => w_send_keys w tr e keys).
Definition elem_click (e : WebElement) : M unit :=
  call (click e) (fun tr => w_click w tr e).
Definition elem_get_attribute (e : WebElement) (name : string) : M (option string) :=
  call (get_attribute e name) (fun tr => w_get_attribute w tr e name).

(** [with open(path, 'w') as f: f.write(data)] *)
Definition open_and_write (path data : string) : M unit :=
  call_writing (open_write path data) path
    (fun tr => match w_open_write w tr path data with
               | Ok _ => Ok (String.list_byte_of_string data)
               | Raise e => Raise e
               end).

(** [image.save(filename)] *)
Definition Image_save (im : Image) (filename : string) : M unit :=
  call_writing (image_save im filename) filename
    (fun tr => w_image_save w tr im filename).

(** [l[i]] *)
Definition subscript (l : list string) (i : nat) : M string :=
  match nth_error l i with
  | Some x => ret x
  | None => raise (mkExn IndexError "list index out of range")
  end.

(** *** Methods of PerfectPayPixGenerator *)

Definition _remove_automation_properties : M unit :=
  driver_execute_script remove_webdriver_script [].

Definition _setup_driver (headless : bool) (ua : option string) : M unit :=
  let chrome_options := _create_chrome_options headless ua in
  Chrome chrome_options ;;;
  _remove_automation_properties.

Definition _create_logs_dir : M unit :=
  (e1 <- path_exists "logs" ;;
   if negb e1 then makedirs "logs" else ret tt) ;;;
  (e2 <- path_exists "images" ;;
   if negb e2 then makedirs "images" else ret tt) ;;;
  (e3 <- path_exists "images/prints" ;;
   if negb e3 then makedirs "images/prints" else ret tt) ;;;
  (e4 <- path_exists "logs/generate_qrcode_pix.log" ;;
   if negb e4 then open_and_write "logs/generate_qrcode_pix.log" "" else ret tt).

Definition _setup_logging : M unit :=
  call logging_basicConfig (w_basicConfig w).

Definition __init__ (base : option string) (headless : bool)
    (ua : option string) (tmo : nat) : M Self :=
  _setup_driver headless ua ;;;
  _create_logs_dir ;;;
  _setup_logging ;;;
  ret (mkSelf base tmo).

Definition _take_screenshot (filename : string) : M unit :=
  try_except
    (timestamp <- strftime "%Y%m%d_%H%M%S" ;;
     let full_filename := screenshot_path filename timestamp in
     let dir_path := dirname full_filename in
     (ex <- path_exists dir_path ;;
      if negb ex then makedirs dir_path else ret tt) ;;;
     driver_save_screenshot full_filename ;;;
     logger_info ("Screenshot salvo: " +:+ full_filename))
    (fun e => logger_error ("Erro ao salvar screenshot: " +:+ str e)).

Definition _navigate_to_checkout (self : Self) (email name phone : string) : M unit :=
  let url := checkout_url (base_url self) email name phone in
  get url ;;;
  sleep 1 ;;;
  logger_info ("Navegando para checkout: " +:+ url).

Definition _fill_cpf_field (self : Self) (cpf : string) : M unit :=
  cpf_field <- until (timeout self)
                 (presence_of_element_located (By_ID, "identification-number")) ;;
  elem_send_keys cpf_field cpf ;;;
  logger_info "Campo CPF preenchido".

Definition _finish_purchase (self : Self) : M unit :=
  try_except
    (finish_btn <- until (timeout self)
                     (element_to_be_clickable (By_ID, "finish-buy-btn")) ;;
     driver_execute_script scroll_script [finish_btn] ;;;
     sleep 1 ;;;
     try_except
       (elem_click finish_btn)
       (fun _ => driver_execute_script click_script [finish_btn]) ;;;
     logger_info "Botão de finalizar compra clicado")
    (fun e =>
       logger_error ("Erro ao clicar no botão de finalizar: " +:+ str e) ;;;
       try_except
         (finish_btn <- driver_find_element By_ID "finish-buy-btn" ;;
          driver_execute_script click_script [finish_btn] ;;;
          logger_info "Botão clicado com JavaScript")
         (fun _ =>
            raise (Exception "Não foi possível clicar no botão de finalizar compra"))).

(** The [for selector in pix_selectors] loop: [break] on the first lookup that
    returns, [continue] on any exception. *)
Fixpoint find_pix_button (selectors : list string) : M (option WebElement) :=
  match selectors with
  | [] => ret None
  | selector :: rest =>
      try_except
        (pix_button <- driver_find_element By_XPATH selector ;;
         ret (Some pix_button))
        (fun _ => find_pix_button rest)
  end.

Definition _handle_existing_pix : M unit :=
  sleep 3 ;;;
  try_except
    (pix_button <- find_pix_button pix_selectors ;;
     match pix_button with
     | Some btn =>
         logger_info "PIX já gerado detectado. Clicando no botão..." ;;;
         driver_execute_script scroll_script [btn] ;;;
         sleep 1 ;;;
         driver_execute_script click_script [btn] ;;;
         sleep 3
     | None => logger_info "Nenhum PIX já gerado encontrado"
     end)
    (fun e => logger_info ("Erro ao verificar PIX já gerado: " +:+ str e)).

Definition _capture_qr_code : M (option string) :=
  sleep 3 ;;;
  url <- driver_current_url ;;
  (if contains "/payment/" url then
     logger_info "Aguardando redirecionamento..." ;;;
     sleep 5 ;;;
     url' <- driver_current_url ;;
     logger_info ("URL após aguardar: " +:+ url')
   else ret tt) ;;;
  try_except
    (qr_element <- until 15 (presence_of_element_located (By_ID, "qrCode")) ;;
     qr_code <- elem_get_attribute qr_element "value" ;;
     logger_info "QR Code capturado com sucesso" ;;;
     ret qr_code)
    (fun _ =>
       logger_error "QR Code não encontrado após 15 segundos" ;;;
       _take_screenshot "qr_code_not_found" ;;;
       raise (Exception "QR Code não foi encontrado na página")).

Definition capture_and_display_qr_image (cpf : string) : M (option string) :=
  try_except
    (logger_info "Capturando imagem do QR Code..." ;;;
     qr_image <- until 15
                   (presence_of_element_located
                      (By_CSS_SELECTOR, "img[src*='data:image']")) ;;
     img_src <- elem_get_attribute qr_image "src" ;;
     if negb (truthy img_src) || negb (startswith "data:image" (fmt img_src)) then
       logger_error "Imagem do QR Code não encontrada ou formato inválido" ;;;
       ret None
     else
       base64_data <- subscript (split "," (fmt img_src)) 1 ;;
       image_bytes <- lift (w_b64decode w base64_data) ;;
       image <- lift (w_Image_open w image_bytes) ;;
       timestamp <- strftime "%Y%m%d_%H%M%S" ;;
       let filename := qrcode_path cpf timestamp in
       Image_save image filename ;;;
       py_print (nl +:+ "🔄 QR Code PIX Capturado:") ;;;
       py_print ("📁 Arquivo salvo: " +:+ filename) ;;;
       py_print ("📏 Dimensões: " +:+ pretty (width image) +:+ "x"
                   +:+ pretty (height image) +:+ " pixels") ;;;
       py_print ("💾 Tamanho: " +:+ pretty (length image_bytes) +:+ " bytes") ;;;
       py_print (nl +:+ "✅ Imagem salva com sucesso!" +:+ nl) ;;;
       logger_info ("Imagem do QR Code salva: " +:+ filename) ;;;
       ret (Some base64_data))
    (fun e =>
       logger_error ("Erro ao capturar e salvar imagem do QR Code: " +:+ str e) ;;;
       ret None).

(** The body of the [try] in [generate_pix]. *)
Definition generate_pix_body (self : Self) (email name phone cpf : string)
    : M (option string) :=
  logger_info ("Iniciando geração de PIX para: " +:+ email) ;;;
  _navigate_to_checkout self email name phone ;;;
  _fill_cpf_field self cpf ;;;
  _finish_purchase self ;;;
  _handle_existing_pix ;;;
  qr_code <- _capture_qr_code ;;
  qr_image_base64 <- capture_and_display_qr_image cpf ;;
  logger_info ("PIX gerado com sucesso para: " +:+ email) ;;;
  ret qr_code.

(** The value returned is a Python [str] ([Some]) or [None]. *)
Definition generate_pix (self : Self) (email name phone cpf : string)
    : M (option string) :=
  try_except
    (generate_pix_body self email name phone cpf)
    (fun e =>
       logger_error ("Erro ao gerar PIX: " +:+ str e) ;;;
       _take_screenshot "error_screenshot" ;;;
       ret (Some EmptyString)).

Definition navigate_to (url : string) : M unit :=
  get url ;;;
  logger_info ("Navegando para: " +:+ url).

Definition wait_for_element (self : Self) (selector : string) (by_ : By)
    (tmo : option nat) : M WebElement :=
  let t := match tmo with Some t => t | None => timeout self end in
  until t (presence_of_element_located (by_, selector)).

(** [close] runs on a generator that [__init__] returned, whose [driver] is
    set: the guard [if self.driver] holds. *)
Definition close : M unit :=
  quit ;;;
  logger_info "Navegador fechado".

End Generator.

(** ** app.py *)

Definition main (w : World) (env_url : option string) : M unit :=
  let config := Config_init env_url in
  generator <- __init__ w (get_perfectpay_checkout_url config) true
                 (Some (get_user_agent config)) 10 ;;
  try_finally
    (try_except
       (qr_code <- generate_pix w generator
                     "iago.heitor.souza@inglesasset.com.br"
                     "Iago Heitor Souza" "95997984584" "25252856974" ;;
        if truthy qr_code
        then py_print w ("QR Code gerado: " +:+ fmt qr_code)
        else py_print w "Falha ao gerar QR Code")
       (fun e => py_print w ("Erro: " +:+ str e)))
    (close w).

(** ** Reading a history *)

Definition call_of (ev : Event) : Call :=
  match ev with Done c | Failed c => c end.

Definition raised (ev : Event) : bool :=
  match ev with Done _ => false | Failed _ => true end.

(** [driver.get] *)
Definition is_navigation (ev : Event) : bool :=
  match call_of ev with driver_get _ => true | _ => false end.

(** The URLs navigated to, in order. *)
Definition navigations (evs : Trace) : list string :=
  omap (fun ev => match call_of ev with driver_get u => Some u | _ => None end) evs.

(** Execution of the script that hides [navigator.webdriver] *)
Definition is_patch (ev : Event) : bool :=
  match call_of ev with
  | execute_script script _ => String.eqb script remove_webdriver_script
  | _ => false
  end.

(** The elements on which the scripted click ran, in order, with whether
    the script raised. *)
Definition scripted_clicks (evs : Trace) : list (WebElement * bool) :=
  omap (fun ev =>
          match call_of ev with
          | execute_script script [e] =>
              if String.eqb script click_script then Some (e, raised ev) else None
          | _ => None
          end) evs.



(** Direct lookups [driver.find_element(by, value)] *)
Definition lookups (evs : Trace) : list (By * string) :=
  omap (fun ev => match call_of ev with
                  | find_element b v => Some (b, v)
                  | _ => None
                  end) evs.

(** File names handed to [driver.save_screenshot] *)
Definition screenshots (evs : Trace) : list string :=
  omap (fun ev => match call_of ev with
                  | save_screenshot f => Some f
                  | _ => None
                  end) evs.

(** A screenshot file name built by [_take_screenshot tag]. *)
Definition tagged (tag filename : string) : bool :=
  startswith ("images/prints/" +:+ tag +:+ "_") filename.

(** Reads of [driver.current_url] *)
Definition url_reads (evs : Trace) : nat :=
  length (List.filter (fun ev => match call_of ev with current_url => true | _ => false end) evs).

(** The waits for the token field that timed out. *)
Definition token_timeouts (evs : Trace) : list unit :=
  omap (fun ev =>
          match ev with
          | Failed (wait_until _ (presence_of_element_located (By_ID, id))) =>
              if String.eqb id "qrCode" then Some tt else None
          | _ => None
          end) evs.

(** Every navigation in the history is followed, later on, by an execution
    of the script that hides [navigator.webdriver]. *)
Fixpoint reinjected_after_every_navigation (evs : Trace) : bool :=
  match evs with
  | [] => true
  | ev :: rest =>
      (if is_navigation ev then existsb is_patch rest else true)
      && reinjected_after_every_navigation rest
  end.


(** The file a call writes to: the log file for a log record (and for
    [basicConfig], whose FileHandler opens it), the path handed to
    [save_screenshot], [open] or [image.save]. *)
Definition log_file : string := "logs/generate_qrcode_pix.log".

Definition file_of (c : Call) : option string :=
  match c with
  | log _ _ | logging_basicConfig => Some log_file
  | save_screenshot filename => Some filename
  | open_write path _ => Some path
  | image_save _ filename => Some filename
  | _ => None
  end.

(** Every file the calls of a history wrote to or tried to write to. *)
Definition files_touched (evs : Trace) : gset string :=
  list_to_set (omap (fun ev => file_of (call_of ev)) evs).

(** ** Example worlds

    A strict RFC 4648 decoder stands in for [base64.b64decode] in the
    example worlds. *)

Definition b64_value (c : ascii) : option N :=
  let n := N_of_ascii c in
  if (65 <=? n)%N && (n <=? 90)%N then Some (n - 65)%N
  else if (97 <=? n)%N && (n <=? 122)%N then Some (n - 71)%N
  else if (48 <=? n)%N && (n <=? 57)%N then Some (n + 4)%N
  else if (n =? 43)%N then Some 62%N
  else if (n =? 47)%N then Some 63%N
  else None.

Definition byte_of_N (n : N) : Byte.byte := byte_of_ascii (ascii_of_N n).

Definition b64_quad (a b c d : N) : list Byte.byte :=
  let v := (a * 262144 + b * 4096 + c * 64 + d)%N in
  [ byte_of_N (v / 65536); byte_of_N ((v / 256) mod 256); byte_of_N (v mod 256) ].

Fixpoint b64_decode_list (l : list ascii) : option (list Byte.byte) :=
  match l with
  | [] => Some []
  | a :: b :: c :: d :: rest =>
      match b64_value a, b64_value b with
      | Some va, Some vb =>
          match b64_value c, b64_value d, rest with
          | Some vc, Some vd, _ =>
              option_map (app (b64_quad va vb vc vd)) (b64_decode_list rest)
          | Some vc, None, [] =>
              if Ascii.eqb d "=" then Some (take 2 (b64_quad va vb vc 0)) else None
          | None, None, [] =>
              if Ascii.eqb c "=" && Ascii.eqb d "="
              then Some (take 1 (b64_quad va vb 0 0)) else None
          | _, _, _ => None
          end
      | _, _ => None
      end
  | _ => None
  end.

Definition strict_b64decode (s : string) : Res (list Byte.byte) :=
  match b64_decode_list (list_ascii_of_string s) with
  | Some bs => Ok bs
  | None => Raise (mkExn BinasciiError "Incorrect padding")
  end.

(** A reader of uncompressed 24-bit bitmaps and a writer of PNG files stand
    in for [Image.open] and [image.save] in the example worlds. *)

Fixpoint le_bytes (n : nat) (v : N) : list Byte.byte :=
  match n with
  | 0 => []
  | S n' => byte_of_N (v mod 256) :: le_bytes n' (v / 256)
  end.

Definition be_bytes (n : nat) (v : N) : list Byte.byte := rev (le_bytes n v).

Fixpoint le_value (bs : list Byte.byte) : N :=
  match bs with
  | [] => 0
  | b :: bs' => (Byte.to_N b + 256 * le_value bs')%N
  end.

(** The field of [n] bytes at offset [off]. *)
Definition field (off n : nat) (data : list Byte.byte) : list Byte.byte :=
  take n (drop off data).

(** A row of BGR triples as RGB triples. *)
Fixpoint bgr_to_rgb (row : list Byte.byte) : list Byte.byte :=
  match row with
  | b :: g :: r :: rest => r :: g :: b :: bgr_to_rgb rest
  | _ => []
  end.

(** The rows of a bottom-up bitmap, top row first. *)
Fixpoint bmp_rows (rows width stride : nat) (body : list Byte.byte) : list Byte.byte :=
  match rows with
  | 0 => []
  | S r =>
      bmp_rows r width stride (drop stride body)
        ++ bgr_to_rgb (take (3 * width) body)
  end.

(** A BITMAPINFOHEADER file: the magic [BM], the offset of the pixel array
    at byte 10, a 40-byte header with the width at byte 18, the height at
    byte 22 (positive: bottom-up), one plane, 24 bits per pixel and no
    compression; rows are padded to four bytes. *)
Definition bmp_decode (data : list Byte.byte) : option Image :=
  let num off n := le_value (field off n data) in
  let magic := num 0 2 in
  let off := num 10 4 in
  let header := num 14 4 in
  let w := num 18 4 in
  let h := num 22 4 in
  let planes := num 26 2 in
  let bits := num 28 2 in
  let compression := num 30 4 in
  let stride := ((3 * w + 3) / 4 * 4)%N in
  if ((magic =? 19778)                          (* BM *)
      && (header =? 40) && (planes =? 1) && (bits =? 24) && (compression =? 0)
      && (0 <? w) && (0 <? h) && (h <? 2147483648)
      && (54 <=? off) && (off + h * stride <=? N.of_nat (length data)))%N
  then Some (mkImage (N.to_nat w) (N.to_nat h)
               (bmp_rows (N.to_nat h) (N.to_nat w) (N.to_nat stride)
                  (drop (N.to_nat off) data)))
  else None.

Definition crc32_bit (c : N) : N :=
  if N.odd c then N.lxor (N.shiftr c 1) 0xEDB88320 else N.shiftr c 1.

Definition crc32_byte (c : N) (b : Byte.byte) : N :=
  Nat.iter 8 crc32_bit (N.lxor c (Byte.to_N b)).

Definition crc32 (bs : list Byte.byte) : N :=
  N.lxor (fold_left crc32_byte bs 0xFFFFFFFF%N) 0xFFFFFFFF.

Definition adler32 (bs : list Byte.byte) : N :=
  let step (s : N * N) (x : Byte.byte) :=
    let a := ((fst s + Byte.to_N x) mod 65521)%N in
    (a, ((snd s + a) mod 65521)%N) in
  let s := fold_left step bs (1%N, 0%N) in
  (snd s * 65536 + fst s)%N.

(** Deflate without compression: stored blocks of at most 65535 bytes. *)
Fixpoint stored_blocks (fuel : nat) (raw : list Byte.byte) : list Byte.byte :=
  match fuel with
  | 0 => []
  | S fuel' =>
      let size := N.to_nat 65535 in
      let block := take size raw in
      let len := N.of_nat (length block) in
      match drop size raw with
      | [] => Byte.x01 :: le_bytes 2 len ++ le_bytes 2 (65535 - len) ++ block
      | rest =>
          Byte.x00 :: le_bytes 2 len ++ le_bytes 2 (65535 - len) ++ block
            ++ stored_blocks fuel' rest
      end
  end.

Definition zlib_stored (raw : list Byte.byte) : list Byte.byte :=
  [Byte.x78; Byte.x01] ++ stored_blocks (S (length raw)) raw
    ++ be_bytes 4 (adler32 raw).

Definition png_signature : list Byte.byte :=
  [Byte.x89; Byte.x50; Byte.x4e; Byte.x47; Byte.x0d; Byte.x0a; Byte.x1a; Byte.x0a].

Definition png_chunk (type : string) (data : list Byte.byte) : list Byte.byte :=
  let body := String.list_byte_of_string type ++ data in
  be_bytes 4 (N.of_nat (length data)) ++ body ++ be_bytes 4 (crc32 body).

(** Each scanline is a filter byte (none) and the row. *)
Fixpoint scanlines (rows row_len : nat) (pixels : list Byte.byte) : list Byte.byte :=
  match rows with
  | 0 => []
  | S r => Byte.x00 :: take row_len pixels ++ scanlines r row_len (drop row_len pixels)
  end.

(** An 8-bit RGB image as a PNG file: IHDR, one IDAT, IEND.  The scanlines
    are stored, where PIL would compress them; either way the file is the
    PNG encoding of the image. *)
Definition png_encode (im : Image) : list Byte.byte :=
  png_signature
    ++ png_chunk "IHDR" (be_bytes 4 (N.of_nat (width im))
                           ++ be_bytes 4 (N.of_nat (height im))
                           ++ [Byte.x08; Byte.x02; Byte.x00; Byte.x00; Byte.x00])
    ++ png_chunk "IDAT" (zlib_stored (scanlines (height im) (3 * width im) (pixels im)))
    ++ png_chunk "IEND" [].

(** The pieces of a mock checkout. *)
Module Mock.

Definition no_such_element {A} : Res A :=
  Raise (mkExn NoSuchElementException "no such element").
Definition timed_out {A} : Res A :=
  Raise (mkExn TimeoutException "").

Definition token : string := "00020126...6304ABCD".

(** Element handles: 1 the CPF field, 2 the finish button, 3 the token
    field, 4 the QR image, 5 the link to an existing payment. *)
Definition wait_all (_ : Trace) (_ : nat) (c : Condition) : Res WebElement :=
  match c with
  | presence_of_element_located (By_ID, id) =>
      if String.eqb id "identification-number" then Ok 1
      else if String.eqb id "qrCode" then Ok 3
      else timed_out
  | presence_of_element_located (By_CSS_SELECTOR, _) => Ok 4
  | element_to_be_clickable (By_ID, id) =>
      if String.eqb id "finish-buy-btn" then Ok 2 else timed_out
  | _ => timed_out
  end.

(** The same page without the token field. *)
Definition wait_no_token (tr : Trace) (t : nat) (c : Condition) : Res WebElement :=
  match c with
  | presence_of_element_located (By_ID, id) =>
      if String.eqb id "qrCode" then timed_out else wait_all tr t c
  | _ => wait_all tr t c
  end.

(** The same page without the CPF field. *)
Definition wait_no_cpf (tr : Trace) (t : nat) (c : Condition) : Res WebElement :=
  match c with
  | presence_of_element_located (By_ID, id) =>
      if String.eqb id "identification-number" then timed_out else wait_all tr t c
  | _ => wait_all tr t c
  end.

Definition find_none (_ : Trace) (_ : By) (_ : string) : Res WebElement :=
  no_such_element.


Definition attr_value (v : option string) (src : option string)
    (_ : Trace) (e : WebElement) (name : string) : Res (option string) :=
  if String.eqb name "value" then Ok v
  else if String.eqb name "src" then Ok src
  else Ok None.

(** A bitmap of one black pixel, 58 bytes, as a data URL. *)
Definition bmp_base64 : string :=
  "Qk06AAAAAAAAADYAAAAoAAAAAQAAAAEAAAABABgAAAAAAAQAAAAAAAAAAAAAAAAAAAAAAAAAAAAAAA==".

Definition bmp_src : option string :=
  Some ("data:image/bmp;base64," +:+ bmp_base64).

Definition script_ok (_ : Trace) (_ : string) (_ : list WebElement) : Res unit := Ok tt.


Definition click_ok (_ : Trace) (_ : WebElement) : Res unit := Ok tt.

Definition url_pix (_ : Trace) : Res string :=
  Ok "https://checkout.example/pix/9f3a".
Definition url_processing (_ : Trace) : Res string :=
  Ok "https://checkout.example/payment/processing".

Definition get_ok (_ : Trace) (_ : string) : Res unit := Ok tt.
Definition get_fails (_ : Trace) (_ : string) : Res unit :=
  Raise (mkExn WebDriverException "net::ERR_NAME_NOT_RESOLVED").

(** [Image.open]: bitmaps are read, anything else is not an image. *)
Definition open_bitmap (data : list Byte.byte) : Res Image :=
  match bmp_decode data with
  | Some im => Ok im
  | None => Raise (mkExn UnidentifiedImageError "cannot identify image file")
  end.

(** [image.save] to a [.png] name writes the PNG encoding of the image. *)
Definition save_png (_ : Trace) (im : Image) (_ : string) : Res (list Byte.byte) :=
  Ok (png_encode im).

Definition world (wait : Trace -> nat -> Condition -> Res WebElement)
    (find : Trace -> By -> string -> Res WebElement)
    (script : Trace -> string -> list WebElement -> Res unit)
    (clk : Trace -> WebElement -> Res unit)
    (url : Trace -> Res string)
    (nav : Trace -> string -> Res unit)
    (attr : Trace -> WebElement -> string -> Res (option string)) : World :=
  {| w_Chrome := fun _ _ => Ok tt;
     w_execute_script := script;
     w_get := nav;
     w_wait_until := wait;
     w_find_element := find;
     w_current_url := url;
     w_save_screenshot := fun _ _ => Ok true;
     w_quit := fun _ => Ok tt;
     w_send_keys := fun _ _ _ => Ok tt;
     w_click := clk;
     w_get_attribute := attr;
     w_strftime := fun _ _ => "20250101_120000";
     w_path_exists := fun _ _ => true;
     w_makedirs := fun _ _ => Ok tt;
     w_open_write := fun _ _ _ => Ok tt;
     w_print := fun _ _ => Ok tt;
     w_basicConfig := fun _ => Ok tt;
     w_b64decode := strict_b64decode;
     w_Image_open := open_bitmap;
     w_image_save := save_png |}.

(** A checkout on which every step works and no payment exists yet. *)
Definition happy : World :=
  world wait_all find_none script_ok click_ok url_pix get_ok
    (attr_value (Some token) bmp_src).

(** The token field is rendered, but it carries no [value] attribute. *)
Definition no_value : World :=
  world wait_all find_none script_ok click_ok url_pix get_ok
    (attr_value None bmp_src).



(** The token field is never rendered. *)
Definition no_token : World :=
  world wait_no_token find_none script_ok click_ok url_pix get_ok
    (attr_value (Some token) bmp_src).

(** The CPF field is never rendered. *)
Definition no_cpf : World :=
  world wait_no_cpf find_none script_ok click_ok url_pix get_ok
    (attr_value (Some token) bmp_src).

(** The checkout host cannot be reached. *)
Definition unreachable : World :=
  world wait_all find_none script_ok click_ok url_pix get_fails
    (attr_value (Some token) bmp_src).



(** The URL keeps pointing at the processing page while the token field
    is already there. *)
Definition stalled : World :=
  world wait_all find_none script_ok click_ok url_processing get_ok
    (attr_value (Some token) bmp_src).

Definition self : Self := mkSelf (Some "https://checkout.example/c/PPU38") 10.

(** Only the link to the thanks page of an existing payment is on the page. *)
Definition find_thanks (_ : Trace) (b : By) (v : string) : Res WebElement :=
  match b with
  | By_XPATH =>
      if String.eqb v "//a[contains(@href, '/payments/thanks')]"
      then Ok 5 else no_such_element
  | _ => no_such_element
  end.

(** A payment was generated before: the second locator matches. *)
Definition existing_payment : World :=
  world wait_all find_thanks script_ok click_ok url_pix get_ok
    (attr_value (Some token) bmp_src).

(** Scrolling to an element raises; every other script runs. *)
Definition script_scroll_fails (_ : Trace) (script : string)
    (_ : list WebElement) : Res unit :=
  if String.eqb script "arguments[0].scrollIntoView(true);"
  then Raise (mkExn WebDriverException "stale element reference")
  else Ok tt.

(** A payment was generated before, and its link goes stale before the
    scroll. *)
Definition stale_link : World :=
  world wait_all find_thanks script_scroll_fails click_ok url_pix get_ok
    (attr_value (Some token) bmp_src).

(** The QR image has a source without a comma. *)
Definition bare_src : World :=
  world wait_all find_none script_ok click_ok url_pix get_ok
    (attr_value (Some token) (Some "data:image/png;base64")).

(** The session is gone: the URL cannot be read. *)
Definition url_fails (_ : Trace) : Res string :=
  Raise (mkExn WebDriverException "invalid session id").

Definition session_lost : World :=
  world wait_all find_none script_ok click_ok url_fails get_ok
    (attr_value (Some token) bmp_src).

(** The browser cannot be launched. *)
Definition no_browser : World :=
  {| w_Chrome := fun _ _ => Raise (mkExn WebDriverException "chromedriver not found");
     w_execute_script := w_execute_script happy;
     w_get := w_get happy;
     w_wait_until := w_wait_until happy;
     w_find_element := w_find_element happy;
     w_current_url := w_current_url happy;
     w_save_screenshot := w_save_screenshot happy;
     w_quit := w_quit happy;
     w_send_keys := w_send_keys happy;
     w_click := w_click happy;
     w_get_attribute := w_get_attribute happy;
     w_strftime := w_strftime happy;
     w_path_exists := w_path_exists happy;
     w_makedirs := w_makedirs happy;
     w_open_write := w_open_write happy;
     w_print := w_print happy;
     w_basicConfig := w_basicConfig happy;
     w_b64decode := w_b64decode happy;
     w_Image_open := w_Image_open happy;
     w_image_save := w_image_save happy |}.

End Mock.

(** ** The steps of [generate_pix] *)

Inductive Step :=
| Navigate | FillCpf | FinishPurchase | HandleExistingPix
| CaptureQrCode | CaptureQrImage.

(** The statements of the [try] block that precede the token extraction. *)
Definition steps_before_token (w : World) (self : Self)
    (email name phone cpf : string) : M unit :=
  logger_info ("Iniciando geração de PIX para: " +:+ email) ;;;
  _navigate_to_checkout w self email name phone ;;;
  _fill_cpf_field w self cpf ;;;
  _finish_purchase w self ;;;
  _handle_existing_pix w.

(** The first step of [generate_pix] that raises, if any: the steps are run
    one after the other, each from the history its predecessors left. *)
Definition failing_step (w : World) (self : Self)
    (email name phone cpf : string) (h : Trace) : option Step :=
  let o0 := logger_info ("Iniciando geração de PIX para: " +:+ email) h in
  let h0 := h ++ emitted o0 in
  let o1 := _navigate_to_checkout w self email name phone h0 in
  match result o1 with
  | Raise _ => Some Navigate
  | Ok _ =>
  let h1 := h0 ++ emitted o1 in
  let o2 := _fill_cpf_field w self cpf h1 in
  match result o2 with
  | Raise _ => Some FillCpf
  | Ok _ =>
  let h2 := h1 ++ emitted o2 in
  let o3 := _finish_purchase w self h2 in
  match result o3 with
  | Raise _ => Some FinishPurchase
  | Ok _ =>
  let h3 := h2 ++ emitted o3 in
  let o4 := _handle_existing_pix w h3 in
  match result o4 with
  | Raise _ => Some HandleExistingPix
  | Ok _ =>
  let h4 := h3 ++ emitted o4 in
  let o5 := _capture_qr_code w h4 in
  match result o5 with
  | Raise _ => Some CaptureQrCode
  | Ok _ =>
  let h5 := h4 ++ emitted o5 in
  match result (capture_and_display_qr_image w cpf h5) with
  | Raise _ => Some CaptureQrImage
  | Ok _ => None
  end end end end end end.

(** The events [_handle_existing_pix] may add: settle delays, XPath probes,
    scripts run on the link found, and INFO log lines. *)
Definition existing_pix_event (ev : Event) : bool :=
  match ev with
  | Done (time_sleep _) => true
  | Done (find_element By_XPATH _) | Failed (find_element By_XPATH _) => true
  | Done (execute_script _ [_]) | Failed (execute_script _ [_]) => true
  | Done (log INFO _) => true
  | _ => false
  end.

(** Event-wise bounds on what a computation adds to the history. *)
Definition no_navigation (ev : Event) : bool := negb (is_navigation ev).
Definition no_patch (ev : Event) : bool := negb (is_patch ev).
Definition no_screenshot (ev : Event) : bool :=
  match call_of ev with save_screenshot _ => false | _ => true end.

(** Neither a screenshot nor a timed-out wait for the token field. *)
Definition quiet (ev : Event) : bool :=
  no_screenshot ev && match token_timeouts [ev] with [] => true | _ => false end.

(** "A diagnostic screenshot tagged with the name of the failing step": the
    steps have names, no two alike, and a run that fails at a step saves a
    screenshot whose file name [_take_screenshot] builds from that step's
    name and a timestamp of the clock. *)
Definition screenshot_names_failing_step : Prop :=
  exists step_name : Step -> string,
    (forall a b, step_name a = step_name b -> a = b)
    /\ forall w self email name phone cpf h st,
         failing_step w self email name phone cpf h = Some st ->
         exists h',
           In (screenshot_path (step_name st) (w_strftime w h' "%Y%m%d_%H%M%S"))
              (screenshots (emitted (generate_pix w self email name phone cpf h))).

(** The statements of the [try] block up to the CPF form. *)
Definition steps_before_finish (w : World) (self : Self)
    (email name phone cpf : string) : M unit :=
  logger_info ("Iniciando geração de PIX para: " +:+ email) ;;;
  _navigate_to_checkout w self email name phone ;;;
  _fill_cpf_field w self cpf.

(** The statements of the [try] block up to the click on the finish
    button. *)
Definition steps_through_finish (w : World) (self : Self)
    (email name phone cpf : string) : M unit :=
  logger_info ("Iniciando geração de PIX para: " +:+ email) ;;;
  _navigate_to_checkout w self email name phone ;;;
  _fill_cpf_field w self cpf ;;;
  _finish_purchase w self.

(** The statements of the [try] block up to and including step [st]. *)
Definition steps_up_to (w : World) (self : Self)
    (email name phone cpf : string) (st : Step) : M unit :=
  logger_info ("Iniciando geração de PIX para: " +:+ email) ;;;
  _navigate_to_checkout w self email name phone ;;;
  match st with
  | Navigate => ret tt
  | _ =>
  _fill_cpf_field w self cpf ;;;
  match st with
  | FillCpf => ret tt
  | _ =>
  _finish_purchase w self ;;;
  match st with
  | FinishPurchase => ret tt
  | _ =>
  _handle_existing_pix w ;;;
  match st with
  | HandleExistingPix => ret tt
  | _ =>
  _capture_qr_code w ;;;
  match st with
  | CaptureQrCode => ret tt
  | _ => capture_and_display_qr_image w cpf ;;; ret tt
  end end end end end.

(** ** Further readers of a history *)

(** Lines handed to [print], in order. *)
Definition printed (evs : Trace) : list string :=
  omap (fun ev => match call_of ev with print l => Some l | _ => None end) evs.

(** Keys sent to elements, in order. *)
Definition typed (evs : Trace) : list (WebElement * string) :=
  omap (fun ev => match call_of ev with
                  | send_keys e keys => Some (e, keys)
                  | _ => None
                  end) evs.

Definition no_send_keys (ev : Event) : bool :=
  match call_of ev with send_keys _ _ => false | _ => true end.

(** Calls of [driver.quit()] *)
Definition quits (evs : Trace) : nat :=
  length (List.filter
            (fun ev => match call_of ev with driver_quit => true | _ => false end)
            evs).

(** Seconds a call may block: the length of a fixed delay or the bound of a
    wait. *)
Definition blocking (ev : Event) : nat :=
  match call_of ev with
  | time_sleep secs => secs
  | wait_until tmo _ => tmo
  | _ => 0
  end.

Definition blocking_time (evs : Trace) : nat := list_sum (map blocking evs).

(** Nothing beyond the CPF form: no click, script, direct lookup, URL read
    or attribute read. *)
Definition before_finish (ev : Event) : bool :=
  match call_of ev with
  | click _ | execute_script _ _ | find_element _ _ | current_url
  | get_attribute _ _ => false
  | _ => true
  end.

(** Nothing of the token extraction or the image capture. *)
Definition before_token (ev : Event) : bool :=
  match call_of ev with
  | current_url | get_attribute _ _ | image_save _ _ | print _ => false
  | _ => true
  end.

Definition no_quit (ev : Event) : bool :=
  match call_of ev with driver_quit => false | _ => true end.

Definition no_print (ev : Event) : bool :=
  match call_of ev with print _ => false | _ => true end.


(** ** Properties of computations *)

Create HintDb py discriminated.

#[global] Hint Unfold
  logger_info logger_error sleep strftime path_exists makedirs py_print
  Chrome driver_execute_script get until driver_find_element
  driver_current_url driver_save_screenshot quit elem_send_keys elem_click
  elem_get_attribute open_and_write Image_save subscript
  _remove_automation_properties _setup_driver _create_logs_dir
  _setup_logging __init__ _take_screenshot _navigate_to_checkout
  _fill_cpf_field _finish_purchase _handle_existing_pix _capture_qr_code
  capture_and_display_qr_image generate_pix_body generate_pix navigate_to
  wait_for_element close : py.

(** [m] returns normally from every history. *)
Definition never_raises {A} (m : M A) : Prop :=
  forall h, exists a, result (m h) = Ok a.

(** Every event [m] can add to the history satisfies [Q]. *)
Definition emits {A} (Q : Event -> bool) (m : M A) : Prop :=
  forall h, forallb Q (emitted (m h)) = true.

Lemma result_and_then {A} evs fs (k : M A) h :
  result (and_then evs fs k h) = result (k (h ++ evs)).
Proof. unfold and_then. now destruct (k (h ++ evs)). Qed.

Lemma emitted_and_then {A} evs fs (k : M A) h :
  emitted (and_then evs fs k h) = evs ++ emitted (k (h ++ evs)).
Proof. unfold and_then. now destruct (k (h ++ evs)). Qed.

Lemma written_and_then {A} evs fs (k : M A) h :
  written (and_then evs fs k h) = written (k (h ++ evs)) ∪ fs.
Proof. unfold and_then. now destruct (k (h ++ evs)). Qed.

Section MonadFacts.

Context {A B : Type}.

Lemma bind_ok (m : M A) (k : A -> M B) h a :
  result (m h) = Ok a ->
  bind m k h = and_then (emitted (m h)) (written (m h)) (k a) h.
Proof. unfold bind. destruct (m h) as [[?|?] ? ?]; simpl; congruence. Qed.

Lemma bind_raise (m : M A) (k : A -> M B) h e :
  result (m h) = Raise e ->
  bind m k h = mkOut (Raise e) (emitted (m h)) (written (m h)).
Proof. unfold bind. destruct (m h) as [[?|?] ? ?]; simpl; congruence. Qed.

Lemma try_except_ok (body : M A) handler h a :
  result (body h) = Ok a -> try_except body handler h = body h.
Proof. unfold try_except. destruct (body h) as [[?|?] ? ?]; simpl; congruence. Qed.

Lemma try_except_raise (body : M A) handler h e :
  result (body h) = Raise e ->
  try_except body handler h
  = and_then (emitted (body h)) (written (body h)) (handler e) h.
Proof. unfold try_except. destruct (body h) as [[?|?] ? ?]; simpl; congruence. Qed.

Lemma never_raises_bind (m : M A) (k : A -> M B) :
  never_raises m -> (forall a, never_raises (k a)) -> never_raises (bind m k).
Proof.
  intros Hm Hk h. destruct (Hm h) as [a Ha].
  rewrite (bind_ok _ _ _ _ Ha), result_and_then. apply Hk.
Qed.

Lemma never_raises_try (body : M A) handler :
  (forall e, never_raises (handler e)) -> never_raises (try_except body handler).
Proof.
  intros Hh h. destruct (result (body h)) as [a|e] eqn:E.
  - rewrite (try_except_ok _ _ _ _ E). eauto.
  - rewrite (try_except_raise _ _ _ _ E), result_and_then. apply Hh.
Qed.

Lemma never_raises_ret (a : A) : never_raises (ret a).
Proof. intros h. now exists a. Qed.

Lemma never_raises_call_total c (resp : Trace -> A) :
  never_raises (call_total c resp).
Proof. intros h. now eexists. Qed.

Lemma emits_ret Q (a : A) : emits Q (ret a).
Proof. now intros h. Qed.

Lemma emits_raise Q e : emits Q (@raise A e).
Proof. now intros h. Qed.

Lemma emits_lift Q (r : Res A) : emits Q (lift r).
Proof. now intros h. Qed.

Lemma emits_call Q c (resp : Trace -> Res A) :
  Q (Done c) = true -> Q (Failed c) = true -> emits Q (call c resp).
Proof.
  intros Hd Hf h. unfold call. destruct (resp h); simpl; now rewrite ?Hd, ?Hf.
Qed.

Lemma emits_call_total Q c (resp : Trace -> A) :
  Q (Done c) = true -> emits Q (call_total c resp).
Proof. intros Hd h. simpl. now rewrite Hd. Qed.

Lemma emits_bind Q (m : M A) (k : A -> M B) :
  emits Q m -> (forall a, emits Q (k a)) -> emits Q (bind m k).
Proof.
  intros Hm Hk h. destruct (result (m h)) as [a|e] eqn:E.
  - rewrite (bind_ok _ _ _ _ E), emitted_and_then, forallb_app, (Hm h). apply Hk.
  - rewrite (bind_raise _ _ _ _ E). apply Hm.
Qed.

Lemma emits_try Q (body : M A) handler :
  emits Q body -> (forall e, emits Q (handler e)) -> emits Q (try_except body handler).
Proof.
  intros Hb Hh h. destruct (result (body h)) as [a|e] eqn:E.
  - rewrite (try_except_ok _ _ _ _ E). apply Hb.
  - rewrite (try_except_raise _ _ _ _ E), emitted_and_then, forallb_app, (Hb h).
    apply Hh.
Qed.

End MonadFacts.

Lemma emits_call_writing Q c path resp :
  Q (Done c) = true -> Q (Failed c) = true -> emits Q (call_writing c path resp).
Proof.
  intros Hd Hf h. unfold call_writing. destruct (resp h); simpl; now rewrite ?Hd, ?Hf.
Qed.

Lemma emits_try_finally {A} Q (body : M A) cleanup :
  emits Q body -> emits Q cleanup -> emits Q (try_finally body cleanup).
Proof.
  intros Hb Hc h. unfold try_finally.
  specialize (Hb h). destruct (body h) as [r evs fs]. simpl in Hb.
  specialize (Hc (h ++ evs)). unfold and_then.
  destruct (cleanup (h ++ evs)) as [[?|?] evs' fs']; simpl in *;
    now rewrite forallb_app, Hb, Hc.
Qed.

Lemma emits_find_pix_button w Q selectors :
  (forall sel, Q (Done (find_element By_XPATH sel)) = true) ->
  (forall sel, Q (Failed (find_element By_XPATH sel)) = true) ->
  emits Q (find_pix_button w selectors).
Proof.
  intros Hd Hf. induction selectors as [|sel rest IH]; simpl.
  - apply emits_ret.
  - apply emits_try; [|intros _; exact IH].
    apply emits_bind; [|intros; apply emits_ret].
    apply emits_call; auto.
Qed.

(** Decompose a computation along its syntax. *)
Ltac emits_step :=
  lazymatch goal with
  | |- emits _ (bind _ _) => apply emits_bind; [|intros ?]
  | |- emits _ (try_except _ _) => apply emits_try; [|intros ?]
  | |- emits _ (try_finally _ _) => apply emits_try_finally
  | |- emits _ (ret _) => apply emits_ret
  | |- emits _ (raise _) => apply emits_raise
  | |- emits _ (lift _) => apply emits_lift
  | |- emits _ (call _ _) => apply emits_call; reflexivity
  | |- emits _ (call_total _ _) => apply emits_call_total; reflexivity
  | |- emits _ (call_writing _ _ _) => apply emits_call_writing; reflexivity
  | |- emits _ (find_pix_button _ _) =>
      apply emits_find_pix_button; intros; reflexivity
  | |- emits _ (if ?b then _ else _) => destruct b
  | |- emits _ (match ?x with _ => _ end) => destruct x
  end.

Ltac emits_tac := autounfold with py; repeat emits_step.

Ltac never_raises_step :=
  lazymatch goal with
  | |- never_raises (bind _ _) => apply never_raises_bind; [|intros ?]
  | |- never_raises (try_except _ _) => apply never_raises_try; intros ?
  | |- never_raises (ret _) => apply never_raises_ret
  | |- never_raises (call_total _ _) => apply never_raises_call_total
  | |- never_raises (if ?b then _ else _) => destruct b
  | |- never_raises (match ?x with _ => _ end) => destruct x
  end.

Ltac never_raises_tac := autounfold with py; repeat never_raises_step.

(** What the readers of a history make of an event-wise bound. *)

Lemma navigations_none evs :
  forallb no_navigation evs = true -> navigations evs = [].
Proof.
  induction evs as [|ev evs IH]; simpl; [easy|].
  intros [H1 H2]%andb_prop. unfold navigations in *. simpl.
  rewrite (IH H2). unfold no_navigation, is_navigation in H1.
  destruct (call_of ev); try easy.
Qed.

Lemma screenshots_none evs :
  forallb no_screenshot evs = true -> screenshots evs = [].
Proof.
  induction evs as [|ev evs IH]; simpl; [easy|].
  intros [H1 H2]%andb_prop. unfold screenshots in *. simpl.
  rewrite (IH H2). unfold no_screenshot in H1.
  destruct (call_of ev); try easy.
Qed.

Lemma navigations_app evs1 evs2 :
  navigations (evs1 ++ evs2) = navigations evs1 ++ navigations evs2.
Proof. apply omap_app. Qed.

Lemma screenshots_app evs1 evs2 :
  screenshots (evs1 ++ evs2) = screenshots evs1 ++ screenshots evs2.
Proof. apply omap_app. Qed.

Section Steps.

Variable w : World.

Lemma _take_screenshot_never_raises filename :
  never_raises (_take_screenshot w filename).
Proof. never_raises_tac. Qed.

Lemma _handle_existing_pix_never_raises :
  never_raises (_handle_existing_pix w).
Proof. never_raises_tac. Qed.

Lemma capture_and_display_qr_image_never_raises cpf :
  never_raises (capture_and_display_qr_image w cpf).
Proof. never_raises_tac. Qed.

Lemma generate_pix_never_raises self email name phone cpf :
  never_raises (generate_pix w self email name phone cpf).
Proof. never_raises_tac. Qed.

Lemma _fill_cpf_field_no_navigation self cpf :
  emits no_navigation (_fill_cpf_field w self cpf).
Proof. emits_tac. Qed.

Lemma _finish_purchase_no_navigation self :
  emits no_navigation (_finish_purchase w self).
Proof. emits_tac. Qed.

Lemma _handle_existing_pix_no_navigation :
  emits no_navigation (_handle_existing_pix w).
Proof. emits_tac. Qed.

Lemma _take_screenshot_no_navigation filename :
  emits no_navigation (_take_screenshot w filename).
Proof. emits_tac. Qed.

Lemma _capture_qr_code_no_navigation :
  emits no_navigation (_capture_qr_code w).
Proof. emits_tac. Qed.

Lemma capture_and_display_qr_image_no_navigation cpf :
  emits no_navigation (capture_and_display_qr_image w cpf).
Proof. emits_tac. Qed.

Lemma __init___no_navigation base headless ua tmo :
  emits no_navigation (__init__ w base headless ua tmo).
Proof. emits_tac. Qed.

Lemma generate_pix_no_patch self email name phone cpf :
  emits no_patch (generate_pix w self email name phone cpf).
Proof. emits_tac. Qed.

Lemma navigate_to_no_patch url : emits no_patch (navigate_to w url).
Proof. emits_tac. Qed.

End Steps.

(** Readers built with [omap] split along [bind] and [try_except]. *)
Section Readers.

Context {A B C : Type} (f : Event -> option C).

Lemma omap_emitted_bind (m : M A) (k : A -> M B) h :
  omap f (emitted (bind m k h))
  = omap f (emitted (m h))
      ++ match result (m h) with
         | Ok a => omap f (emitted (k a (h ++ emitted (m h))))
         | Raise _ => []
         end.
Proof.
  destruct (result (m h)) as [a|e] eqn:E.
  - rewrite (bind_ok _ _ _ _ E), emitted_and_then. apply omap_app.
  - rewrite (bind_raise _ _ _ _ E). simpl. now rewrite app_nil_r.
Qed.

Lemma omap_emitted_try (body : M A) handler h :
  omap f (emitted (try_except body handler h))
  = omap f (emitted (body h))
      ++ match result (body h) with
         | Ok _ => []
         | Raise e => omap f (emitted (handler e (h ++ emitted (body h))))
         end.
Proof.
  destruct (result (body h)) as [a|e] eqn:E.
  - rewrite (try_except_ok _ _ _ _ E). now rewrite app_nil_r.
  - rewrite (try_except_raise _ _ _ _ E), emitted_and_then. apply omap_app.
Qed.

End Readers.

(** Case analysis on every answer of the world along a computation. *)
Ltac world_case :=
  match goal with
  | |- context [match ?x with Ok _ => _ | Raise _ => _ end] =>
      lazymatch x with
      | context [match _ with _ => _ end] => fail
      | _ => destruct x eqn:?
      end
  | |- context [if ?x then _ else _] =>
      lazymatch x with
      | context [match _ with _ => _ end] => fail
      | _ => destruct x eqn:?
      end
  | |- context [match ?x with Some _ => _ | None => _ end] =>
      lazymatch x with
      | context [match _ with _ => _ end] => fail
      | _ => destruct x eqn:?
      end
  end.

Ltac unfold_monad :=
  autounfold with py;
  unfold bind, try_except, and_then, call, call_total, call_writing, ret, raise, lift.

Ltac py_cbn :=
  cbn -[String.append pretty union startswith contains split truthy fmt nth_error].

Ltac run_cases :=
  repeat first [ progress unfold_monad | progress py_cbn | world_case ].

(** Name the output of the computation in the goal and analyse it. *)
Ltac run_out o :=
  let r := fresh "r" in
  let evs := fresh "evs" in
  let fs := fresh "fs" in
  let E := fresh "E" in
  destruct o as [r evs fs] eqn:E; revert E; run_cases;
  intros E; inversion E; subst; clear E; py_cbn.

(** Results and events of a sequence. *)
Lemma result_bind {A B} (m : M A) (k : A -> M B) h :
  result (bind m k h)
  = match result (m h) with
    | Ok a => result (k a (h ++ emitted (m h)))
    | Raise e => Raise e
    end.
Proof.
  destruct (result (m h)) as [a|e] eqn:E.
  - now rewrite (bind_ok _ _ _ _ E), result_and_then.
  - now rewrite (bind_raise _ _ _ _ E).
Qed.

Lemma emitted_bind {A B} (m : M A) (k : A -> M B) h :
  emitted (bind m k h)
  = emitted (m h)
      ++ match result (m h) with
         | Ok a => emitted (k a (h ++ emitted (m h)))
         | Raise _ => []
         end.
Proof.
  destruct (result (m h)) as [a|e] eqn:E.
  - now rewrite (bind_ok _ _ _ _ E), emitted_and_then.
  - rewrite (bind_raise _ _ _ _ E). simpl. now rewrite app_nil_r.
Qed.

Lemma bind_assoc {A B C} (m : M A) (k : A -> M B) (k' : B -> M C) h :
  bind (bind m k) k' h = bind m (fun a => bind (k a) k') h.
Proof.
  unfold bind, and_then.
  destruct (m h) as [[a|e] evs fs]; [|reflexivity].
  destruct (k a (h ++ evs)) as [[b|e] evs' fs']; [|reflexivity].
  rewrite <- app_assoc.
  destruct (k' b (h ++ evs ++ evs')) as [r evs'' fs''].
  now rewrite app_assoc, (assoc_L (∪)).
Qed.

Lemma bind_ext {A B} (m : M A) (k k' : A -> M B) h :
  (forall a h', k a h' = k' a h') -> bind m k h = bind m k' h.
Proof.
  intros H. unfold bind, and_then.
  destruct (m h) as [[a|e] evs fs]; [|reflexivity]. now rewrite H.
Qed.


Lemma quiet_none evs :
  forallb quiet evs = true -> screenshots evs = [] /\ token_timeouts evs = [].
Proof.
  induction evs as [|ev evs IH]; simpl; [easy|].
  intros [H1 H2]%andb_prop. destruct (IH H2) as [IH1 IH2].
  unfold quiet in H1. apply andb_prop in H1 as [Ha Hb].
  unfold screenshots, token_timeouts in *. simpl in *.
  rewrite IH1, IH2. split.
  - unfold no_screenshot in Ha. now destruct (call_of ev).
  - match type of Hb with
    | context [match ?x with Some _ => _ | None => _ end] => now destruct x
    end.
Qed.


(** Facts about the string helpers. *)

(** [s.startswith(pre)] holds exactly when [s] is [pre] followed by some
    text. *)
Lemma startswith_append (pre s : string) :
  startswith pre s = true <-> exists rest, s = pre +:+ rest.
Proof.
  revert s. induction pre as [|a pre IH]; intros s.
  - split; [intros _; now exists s | reflexivity].
  - destruct s as [|b s]; simpl.
    + split; [discriminate | intros [rest H]; discriminate H].
    + rewrite andb_true_iff, IH. split.
      * intros [Hab [rest ->]]. apply Ascii.eqb_eq in Hab as ->. now exists rest.
      * intros [rest [= -> ->]]. split; [apply Ascii.eqb_refl | now exists rest].
Qed.




(** A text without the separator is one field. *)
Lemma split_one_field sep (s : string) :
  ~ In sep (list_ascii_of_string s) -> split sep s = [s].
Proof.
  induction s as [|c s IH]; [reflexivity|]. simpl. intros H.
  destruct (Ascii.eqb c sep) eqn:Hc.
  - apply Ascii.eqb_eq in Hc. exfalso. apply H. now left.
  - rewrite IH; [reflexivity|]. intros Hin. apply H. now right.
Qed.

(** The shapes of a run of [_handle_existing_pix] that stopped at probe [k]. *)
Ltac first_match_leaf k :=
  exists k; split; [lia|]; split;
  [ intros j sel Hj Hs;
    repeat (destruct j as [|j]; [injection Hs as <-; eexists; eassumption|]);
    exfalso; lia
  | cbn -[String.append]; repeat rewrite <- app_assoc; cbn -[String.append];
    first
      [ reflexivity
      | eexists; split; [eassumption|];
        repeat match goal with
               | H : w_execute_script _ _ _ _ = _ |- _ => rewrite H; clear H
               end;
        reflexivity ] ].

Section Claims.

Variable w : World.

(** *** The token survives (C2) *)

Lemma generate_pix_body_split self email name phone cpf h :
  generate_pix_body w self email name phone cpf h
  = bind (steps_before_token w self email name phone cpf)
      (fun _ =>
         qr_code <- _capture_qr_code w ;;
         _ <- capture_and_display_qr_image w cpf ;;
         logger_info ("PIX gerado com sucesso para: " +:+ email) ;;;
         ret qr_code) h.
Proof.
  unfold generate_pix_body, steps_before_token.
  rewrite bind_assoc. apply bind_ext. intros _ h1.
  rewrite bind_assoc. apply bind_ext. intros _ h2.
  rewrite bind_assoc. apply bind_ext. intros _ h3.
  rewrite bind_assoc. reflexivity.
Qed.



(** *** Diagnostic screenshots (C3) *)

Lemma steps_before_token_quiet self email name phone cpf :
  emits quiet (steps_before_token w self email name phone cpf).
Proof. unfold steps_before_token. emits_tac. Qed.

Lemma capture_and_display_qr_image_quiet cpf :
  emits quiet (capture_and_display_qr_image w cpf).
Proof. emits_tac. Qed.

Lemma _take_screenshot_shot filename h :
  (forall tr p, w_makedirs w tr p = Ok tt) ->
  let o := _take_screenshot w filename h in
  result o = Ok tt
  /\ screenshots (emitted o)
     = [screenshot_path filename (w_strftime w h "%Y%m%d_%H%M%S")]
  /\ token_timeouts (emitted o) = [].
Proof.
  intros Hmk o. subst o.
  run_out (_take_screenshot w filename h).
  all: try (rewrite Hmk in *; discriminate).
  all: repeat split.
Qed.

Lemma _capture_qr_code_shots h :
  (forall tr p, w_makedirs w tr p = Ok tt) ->
  let o := _capture_qr_code w h in
  (token_timeouts (emitted o) = [] \/
   exists h', screenshots (emitted o)
              = [screenshot_path "qr_code_not_found" (w_strftime w h' "%Y%m%d_%H%M%S")])
  /\ forall tok, result o = Ok tok ->
       screenshots (emitted o) = [] /\ token_timeouts (emitted o) = [].
Proof.
  intros Hmk o. subst o.
  run_out (_capture_qr_code w h).
  all: try (rewrite Hmk in *; discriminate).
  all: split; [| intros tok Hr; first [discriminate Hr | split; reflexivity]].
  all: first [left; reflexivity | right; eexists; reflexivity].
Qed.

Lemma failing_step_results self email name phone cpf h st :
  failing_step w self email name phone cpf h = Some st ->
  (exists e, result (generate_pix_body w self email name phone cpf h) = Raise e)
  /\ (st <> CaptureQrCode ->
      exists e, result (steps_before_token w self email name phone cpf h) = Raise e)
  /\ (st = CaptureQrCode ->
      result (steps_before_token w self email name phone cpf h) = Ok tt).
Proof.
  rewrite generate_pix_body_split, result_bind.
  unfold failing_step, steps_before_token. cbv zeta.
  repeat (rewrite ?result_bind, ?emitted_bind;
          cbn [result emitted logger_info call_total];
          repeat rewrite <- app_assoc; cbn [app];
          match goal with
          | |- context [match result ?o with _ => _ end] =>
              lazymatch o with
              | context [match _ with _ => _ end] => fail
              | _ => destruct (result o) eqn:?
              end
          end).
  all: intros [= <-].
  all: try match goal with
           | H : result (capture_and_display_qr_image w ?c ?hh) = Raise _ |- _ =>
               destruct (capture_and_display_qr_image_never_raises w c hh) as [? ?];
               congruence
           end.
  all: repeat match goal with a : unit |- _ => destruct a end.
  all: repeat split; eauto; try discriminate; try congruence.
Qed.

Lemma generate_pix_body_shots self email name phone cpf h :
  let ob := generate_pix_body w self email name phone cpf h in
  let os := steps_before_token w self email name phone cpf h in
  let oc := _capture_qr_code w (h ++ emitted os) in
  screenshots (emitted ob)
  = match result os with Ok _ => screenshots (emitted oc) | Raise _ => [] end
  /\ token_timeouts (emitted ob)
     = match result os with Ok _ => token_timeouts (emitted oc) | Raise _ => [] end.
Proof.
  intros ob os oc. subst ob.
  rewrite generate_pix_body_split. unfold screenshots, token_timeouts.
  rewrite !omap_emitted_bind. fold os.
  destruct (quiet_none _ (steps_before_token_quiet self email name phone cpf h))
    as [Hs Ht].
  fold os in Hs, Ht. unfold screenshots, token_timeouts in Hs, Ht.
  rewrite Hs, Ht. cbn [app].
  destruct (result os) as [[]|]; [|split; reflexivity].
  fold oc. destruct (result oc) as [tok|]; [|now rewrite !app_nil_r].
  match goal with
  | |- context [emitted (bind ?m ?k ?h')] =>
      assert (Hq : emits quiet (bind m k)) by emits_tac;
      destruct (quiet_none _ (Hq h')) as [Hs' Ht']
  end.
  unfold screenshots, token_timeouts in Hs', Ht'.
  now rewrite Hs', Ht', !app_nil_r.
Qed.

(** C3, as the code has it.  When a step fails, [generate_pix] returns the
    empty string and its last screenshot is the one tagged
    [error_screenshot], whatever the step.  Only a failure of the token
    extraction can add a screenshot before it, and when the wait for the
    token field timed out that is exactly one screenshot tagged
    [qr_code_not_found].  (Directory creation is assumed not to fail.) *)
Theorem generate_pix_failure_screenshots self email name phone cpf h st :
  (forall tr p, w_makedirs w tr p = Ok tt) ->
  failing_step w self email name phone cpf h = Some st ->
  let o := generate_pix w self email name phone cpf h in
  result o = Ok (Some EmptyString)
  /\ exists pre h_err,
       screenshots (emitted o)
       = pre ++ [screenshot_path "error_screenshot"
                   (w_strftime w h_err "%Y%m%d_%H%M%S")]
       /\ (st <> CaptureQrCode -> pre = [])
       /\ (token_timeouts (emitted o) <> [] ->
           exists h_qr,
             pre = [screenshot_path "qr_code_not_found"
                      (w_strftime w h_qr "%Y%m%d_%H%M%S")]).
Proof.
  intros Hmk Hst o. subst o.
  destruct (failing_step_results _ _ _ _ _ _ _ Hst) as ([e He] & Hsteps & _).
  unfold generate_pix.
  rewrite (try_except_raise _ _ _ _ He), result_and_then, emitted_and_then.
  set (hb := h ++ emitted (generate_pix_body w self email name phone cpf h)).
  rewrite !result_bind, !emitted_bind.
  cbn [result emitted logger_error call_total app].
  destruct (_take_screenshot_shot "error_screenshot"
              (hb ++ [Done (log ERROR ("Erro ao gerar PIX: " +:+ str e))]) Hmk)
    as (Hr & Hs & Ht).
  rewrite Hr. split; [reflexivity|].
  cbn [result emitted ret]. rewrite app_nil_r.
  exists (screenshots (emitted (generate_pix_body w self email name phone cpf h))).
  eexists.
  rewrite screenshots_app. unfold screenshots at 2. cbn [omap list_omap].
  fold (screenshots (emitted (_take_screenshot w "error_screenshot"
          (hb ++ [Done (log ERROR ("Erro ao gerar PIX: " +:+ str e))])))).
  rewrite Hs. split; [reflexivity|].
  destruct (generate_pix_body_shots self email name phone cpf h) as [Hbs Hbt].
  cbv zeta in Hbs, Hbt. split.
  - intros Hne. destruct (Hsteps Hne) as [e' He']. now rewrite Hbs, He'.
  - unfold token_timeouts at 1. rewrite omap_app. cbn [omap list_omap].
    fold (token_timeouts (emitted (generate_pix_body w self email name phone cpf h))).
    fold (token_timeouts (emitted (_take_screenshot w "error_screenshot"
            (hb ++ [Done (log ERROR ("Erro ao gerar PIX: " +:+ str e))])))).
    rewrite Ht, app_nil_r, Hbt, Hbs.
    destruct (result (steps_before_token w self email name phone cpf h));
      [|congruence].
    intros Hne.
    destruct (_capture_qr_code_shots
                (h ++ emitted (steps_before_token w self email name phone cpf h))
                Hmk) as [[Hnone|Hshot] _]; [congruence | exact Hshot].
Qed.

(** *** Finishing the purchase (C4) *)


(** *** An existing payment (C5, C10) *)

Lemma generate_pix_body_split_existing self email name phone cpf h :
  generate_pix_body w self email name phone cpf h
  = bind (steps_through_finish w self email name phone cpf)
      (fun _ =>
         _handle_existing_pix w ;;;
         qr_code <- _capture_qr_code w ;;
         _ <- capture_and_display_qr_image w cpf ;;
         logger_info ("PIX gerado com sucesso para: " +:+ email) ;;;
         ret qr_code) h.
Proof.
  unfold generate_pix_body, steps_through_finish.
  rewrite bind_assoc. apply bind_ext. intros _ h1.
  rewrite bind_assoc. apply bind_ext. intros _ h2.
  rewrite bind_assoc. reflexivity.
Qed.

(** What follows [_handle_existing_pix] in a run of [generate_pix] whose
    earlier steps returned: the token extraction, from the history the
    resolver left. *)
Lemma generate_pix_after_existing self email name phone cpf h :
  let o0 := steps_through_finish w self email name phone cpf h in
  let o := _handle_existing_pix w (h ++ emitted o0) in
  result o0 = Ok tt ->
  exists rest,
    emitted (generate_pix w self email name phone cpf h)
    = emitted o0 ++ emitted o
        ++ emitted (_capture_qr_code w ((h ++ emitted o0) ++ emitted o)) ++ rest.
Proof.
  intros o0 o H0.
  destruct (_handle_existing_pix_never_raises w (h ++ emitted o0)) as [[] H1].
  fold o in H1.
  assert (Hb : emitted (generate_pix_body w self email name phone cpf h)
               = emitted o0 ++ emitted o
                   ++ emitted (_capture_qr_code w ((h ++ emitted o0) ++ emitted o))
                   ++ match result (_capture_qr_code w ((h ++ emitted o0) ++ emitted o)) with
                      | Ok qr_code =>
                          emitted ((_ <- capture_and_display_qr_image w cpf ;;
                                    logger_info ("PIX gerado com sucesso para: " +:+ email) ;;;
                                    ret qr_code)
                                     (((h ++ emitted o0) ++ emitted o)
                                        ++ emitted (_capture_qr_code w
                                                      ((h ++ emitted o0) ++ emitted o))))
                      | Raise _ => []
                      end).
  { rewrite generate_pix_body_split_existing, emitted_bind. fold o0. rewrite H0.
    rewrite emitted_bind. fold o. rewrite H1.
    now rewrite emitted_bind. }
  unfold generate_pix.
  destruct (result (generate_pix_body w self email name phone cpf h)) as [a|e] eqn:Hr.
  - rewrite (try_except_ok _ _ _ _ Hr), Hb. eexists. reflexivity.
  - rewrite (try_except_raise _ _ _ _ Hr), emitted_and_then, Hb.
    eexists. rewrite <- !app_assoc. reflexivity.
Qed.

(** The token extraction starts with its settle delay and a read of the
    URL. *)
Lemma _capture_qr_code_starts h :
  exists ev tail,
    emitted (_capture_qr_code w h) = Done (time_sleep 3) :: ev :: tail
    /\ call_of ev = current_url.
Proof.
  run_out (_capture_qr_code w h).
  all: eexists _, _; split; reflexivity.
Qed.

(** C5, as the code has it.  In a run of [generate_pix] whose steps up to
    the finish button returned, [_handle_existing_pix] waits three seconds
    and probes the three locators in the order the source lists them,
    stopping at the first lookup that returns.  It then runs the scroll
    script on that element and, only if the scroll script returned, the
    click script: when the scroll script raises, the link that matched is
    never clicked.  A script that raises is logged at INFO level.  When all
    three lookups raise it logs "Nenhum PIX já gerado encontrado".  In every
    case the resolver returns, and the token extraction is what
    [generate_pix] runs next, from the history the resolver left: its
    three-second delay, then its read of the URL. *)
Theorem _handle_existing_pix_first_match self email name phone cpf h :
  let selectors :=
    [ "//a[contains(@class, 'btn-primary') and contains(text(), 'Abrir')]";
      "//a[contains(@href, '/payments/thanks')]";
      "//a[contains(., 'Abrir') and contains(., 'Pix') and contains(., 'já gerado')" ] in
  let scroll := "arguments[0].scrollIntoView(true);" in
  let click := "arguments[0].click();" in
  let o0 := steps_through_finish w self email name phone cpf h in
  let h0 := h ++ emitted o0 in
  let o := _handle_existing_pix w h0 in
  result o0 = Ok tt ->
  result o = Ok tt
  /\ (exists rest,
        emitted (generate_pix w self email name phone cpf h)
        = emitted o0 ++ emitted o ++ emitted (_capture_qr_code w (h0 ++ emitted o))
            ++ rest)
  /\ (exists ev tail,
        emitted (_capture_qr_code w (h0 ++ emitted o))
        = Done (time_sleep 3) :: ev :: tail
        /\ call_of ev = current_url)
  /\ exists k, k <= 3 /\
       let probed j :=
         Done (time_sleep 3)
           :: map (fun sel => Failed (find_element By_XPATH sel)) (take j selectors) in
       (forall j sel, j < k -> selectors !! j = Some sel ->
          exists e, w_find_element w (h0 ++ probed j) By_XPATH sel = Raise e)
       /\ match selectors !! k with
          | None =>
              emitted o = probed k ++ [Done (log INFO "Nenhum PIX já gerado encontrado")]
          | Some sel =>
              exists btn,
                let found :=
                  probed k ++ [Done (find_element By_XPATH sel);
                               Done (log INFO "PIX já gerado detectado. Clicando no botão...")] in
                w_find_element w (h0 ++ probed k) By_XPATH sel = Ok btn
                /\ emitted o
                   = found
                       ++ match w_execute_script w (h0 ++ found) scroll [btn] with
                          | Raise e =>
                              [Failed (execute_script scroll [btn]);
                               Done (log INFO ("Erro ao verificar PIX já gerado: "
                                                 +:+ exn_msg e))]
                          | Ok _ =>
                              let scrolled :=
                                found ++ [Done (execute_script scroll [btn]);
                                          Done (time_sleep 1)] in
                              Done (execute_script scroll [btn]) :: Done (time_sleep 1)
                                :: match w_execute_script w (h0 ++ scrolled) click [btn] with
                                   | Ok _ =>
                                       [Done (execute_script click [btn]);
                                        Done (time_sleep 3)]
                                   | Raise e =>
                                       [Failed (execute_script click [btn]);
                                        Done (log INFO ("Erro ao verificar PIX já gerado: "
                                                          +:+ exn_msg e))]
                                   end
                          end
          end.
Proof.
  intros selectors scroll click o0 h0 o H0.
  split; [|split; [|split]].
  - destruct (_handle_existing_pix_never_raises w h0) as [[] H]. exact H.
  - exact (generate_pix_after_existing self email name phone cpf h H0).
  - apply _capture_qr_code_starts.
  - subst o selectors scroll click. clearbody h0. clear H0 o0.
    run_out (_handle_existing_pix w h0).
    all: unfold scroll_script, click_script in *.
    all: repeat rewrite <- app_assoc in *; simpl in *.
    all: first [ solve [first_match_leaf 0] | solve [first_match_leaf 1]
               | solve [first_match_leaf 2] | solve [first_match_leaf 3] ].
Qed.

(** C10. [_handle_existing_pix] returns normally from every page state: it
    adds only settle delays, XPath probes, scripts on the link found and
    INFO log lines to the history, and it is never the step that makes
    [generate_pix] fail. *)
Theorem _handle_existing_pix_cannot_fail self email name phone cpf h :
  result (_handle_existing_pix w h) = Ok tt
  /\ forallb existing_pix_event (emitted (_handle_existing_pix w h)) = true
  /\ failing_step w self email name phone cpf h <> Some HandleExistingPix.
Proof.
  split; [|split].
  - destruct (_handle_existing_pix_never_raises w h) as [[] H]. exact H.
  - assert (H : emits existing_pix_event (_handle_existing_pix w)) by emits_tac.
    apply H.
  - unfold failing_step. cbv zeta.
    repeat match goal with
    | |- context [match result (_handle_existing_pix w ?h') with _ => _ end] =>
        destruct (_handle_existing_pix_never_raises w h') as [? ->]
    | |- context [match result ?o with _ => _ end] => destruct (result o)
    end; discriminate.
Qed.

(** *** The QR image (C6) *)


(** *** Token extraction (C7) *)

(** C7, as the code has it.  When the URL still names the processing page
    after the single extra wait, [_capture_qr_code] reads the URL no further
    and goes on to wait 15 seconds for the token field: it returns the
    field's value when the wait and the attribute read return, and raises
    the plain exception "QR Code não foi encontrado na página" otherwise. *)
Theorem _capture_qr_code_ignores_stall h u1 u2 :
  let h1 := h ++ [Done (time_sleep 3)] in
  let h2 := h1 ++ [Done current_url;
                   Done (log INFO "Aguardando redirecionamento...");
                   Done (time_sleep 5)] in
  let h3 := h2 ++ [Done current_url; Done (log INFO ("URL após aguardar: " +:+ u2))] in
  let token_field := presence_of_element_located (By_ID, "qrCode") in
  w_current_url w h1 = Ok u1 ->
  contains "/payment/" u1 = true ->
  w_current_url w h2 = Ok u2 ->
  contains "/payment/" u2 = true ->
  let o := _capture_qr_code w h in
  url_reads (emitted o) = 2
  /\ result o
     = match w_wait_until w h3 15 token_field with
       | Ok qr_element =>
           match w_get_attribute w (h3 ++ [Done (wait_until 15 token_field)])
                   qr_element "value" with
           | Ok qr_code => Ok qr_code
           | Raise _ => Raise (Exception "QR Code não foi encontrado na página")
           end
       | Raise _ => Raise (Exception "QR Code não foi encontrado na página")
       end.
Proof.
  intros h1 h2 h3 token_field H1 Hc1 H2 Hc2 o. subst o h1 h2 h3 token_field.
  run_out (_capture_qr_code w h).
  all: repeat rewrite <- app_assoc in *; simpl in *.
  all: repeat match goal with
              | H : ?x = _, H' : ?x = _ |- _ =>
                  rewrite H in H'; inversion H'; subst; clear H'
              end.
  all: try congruence.
  all: split; reflexivity.
Qed.

(** *** The anti-detection script (C8) *)

(** C8, as the code has it.  The script that hides [navigator.webdriver]
    runs once, in the constructor, right after the browser is launched and
    before any navigation: the constructor never navigates.  Neither
    [generate_pix] nor [navigate_to] runs it again. *)
Theorem patch_runs_once_at_construction
    base headless ua tmo self email name phone cpf url h :
  let o := __init__ w base headless ua tmo h in
  forallb no_navigation (emitted o) = true
  /\ length (List.filter is_patch (emitted o)) <= 1
  /\ (forall self', result o = Ok self' ->
      exists rest,
        emitted o = Done (webdriver_Chrome (_create_chrome_options headless ua))
                      :: Done (execute_script remove_webdriver_script [])
                      :: rest
        /\ forallb no_patch rest = true)
  /\ forallb no_patch (emitted (generate_pix w self email name phone cpf h)) = true
  /\ forallb no_patch (emitted (navigate_to w url h)) = true.
Proof.
  intros o. subst o.
  split; [apply __init___no_navigation|].
  split; [|split; [|split; [apply generate_pix_no_patch | apply navigate_to_no_patch]]].
  - run_out (__init__ w base headless ua tmo h); simpl; lia.
  - run_out (__init__ w base headless ua tmo h).
    all: intros self' Hr; try discriminate Hr.
    all: eexists; split; reflexivity.
Qed.

(** *** The checkout URL (C9) *)

Lemma _navigate_to_checkout_navigations self email name phone h :
  navigations (emitted (_navigate_to_checkout w self email name phone h))
  = [checkout_url (base_url self) email name phone].
Proof.
  unfold _navigate_to_checkout, get, bind, call.
  destruct (w_get w h _); reflexivity.
Qed.

Lemma generate_pix_body_navigations self email name phone cpf h :
  navigations (emitted (generate_pix_body w self email name phone cpf h))
  = [checkout_url (base_url self) email name phone].
Proof.
  unfold generate_pix_body, navigations.
  rewrite 2!omap_emitted_bind.
  change (omap _ (emitted (_navigate_to_checkout w self email name phone ?h')))
    with (navigations (emitted (_navigate_to_checkout w self email name phone h'))).
  rewrite _navigate_to_checkout_navigations.
  match goal with
  | |- context [omap ?g (emitted (bind ?m ?k ?h'))] =>
      assert (H : emits no_navigation (bind m k)) by emits_tac;
      change (omap g (emitted (bind m k h')))
        with (navigations (emitted (bind m k h')));
      rewrite (navigations_none _ (H h'))
  end.
  simpl.
  now destruct (result (_navigate_to_checkout _ _ _ _ _ _)).
Qed.

(** C9. The only URL [generate_pix] navigates to is the base URL followed by
    [?email=], the e-mail, [&name=], the name, [&phone=] and the phone, each
    field exactly as the caller passed it, with no character escaped.  A
    generator built without a base URL (the environment variable unset)
    formats it as Python formats [None]. *)
Theorem generate_pix_navigates_to_checkout_url self email name phone cpf h :
  navigations (emitted (generate_pix w self email name phone cpf h))
  = [match base_url self with Some b => b | None => "None" end
       +:+ "?email=" +:+ email +:+ "&name=" +:+ name +:+ "&phone=" +:+ phone].
Proof.
  unfold generate_pix, navigations.
  rewrite omap_emitted_try.
  change (omap _ (emitted (generate_pix_body w self email name phone cpf h)))
    with (navigations (emitted (generate_pix_body w self email name phone cpf h))).
  rewrite generate_pix_body_navigations.
  destruct (result (generate_pix_body _ _ _ _ _ _ _)) as [|e]; [reflexivity|].
  match goal with
  | |- context [omap ?g (emitted (bind ?m ?k ?h'))] =>
      assert (H : emits no_navigation (bind m k)) by emits_tac;
      change (omap g (emitted (bind m k h')))
        with (navigations (emitted (bind m k h')));
      rewrite (navigations_none _ (H h'))
  end.
  reflexivity.
Qed.
End Claims.

(** ** Runs on the example worlds *)

(** C1. On a page whose token field is present but has no [value] attribute,
    every step succeeds and [generate_pix] returns [None], which is neither a
    non-empty string nor the empty string. *)
Theorem generate_pix_returns_None :
  failing_step Mock.no_value Mock.self "a@b.com" "A B" "1199999999" "12345678900" []
  = None
  /\ result (generate_pix Mock.no_value Mock.self
               "a@b.com" "A B" "1199999999" "12345678900" [])
     = Ok None.
Proof. split; vm_compute; reflexivity. Qed.



(** File names of screenshots determine their tag. *)
Lemma length_append (a b : string) :
  String.length (a +:+ b) = String.length a + String.length b.
Proof. induction a as [|c a IH]; simpl; [reflexivity | now rewrite IH]. Qed.

Lemma append_inv_tail (a b t : string) : a +:+ t = b +:+ t -> a = b.
Proof.
  revert b. induction a as [|c a IH]; intros [|d b] H.
  - reflexivity.
  - apply (f_equal String.length) in H. rewrite !length_append in H.
    simpl in H. lia.
  - apply (f_equal String.length) in H. rewrite !length_append in H.
    simpl in H. lia.
  - injection H as -> H. f_equal. now apply IH.
Qed.

Lemma screenshot_path_inj (a b ts : string) :
  screenshot_path a ts = screenshot_path b ts -> a = b.
Proof.
  unfold screenshot_path. intros H.
  apply (inj (String.append "images/prints/")) in H.
  now apply append_inv_tail in H.
Qed.

(** C3, counterexample.  When the checkout cannot be reached and when the
    CPF field never appears, the run saves the same single screenshot,
    tagged [error_screenshot]: no naming of the steps is reflected in it. *)
Lemma screenshot_tag_is_not_the_failing_step : ~ screenshot_names_failing_step.
Proof.
  intros (step_name & Hinj & H).
  destruct (H Mock.unreachable Mock.self "a@b.com" "A B" "1199999999"
              "12345678900" [] Navigate) as [h1 H1]; [vm_compute; reflexivity|].
  destruct (H Mock.no_cpf Mock.self "a@b.com" "A B" "1199999999"
              "12345678900" [] FillCpf) as [h2 H2]; [vm_compute; reflexivity|].
  assert (E1 : screenshots (emitted (generate_pix Mock.unreachable Mock.self
                  "a@b.com" "A B" "1199999999" "12345678900" []))
               = [screenshot_path "error_screenshot" "20250101_120000"])
    by (vm_compute; reflexivity).
  assert (E2 : screenshots (emitted (generate_pix Mock.no_cpf Mock.self
                  "a@b.com" "A B" "1199999999" "12345678900" []))
               = [screenshot_path "error_screenshot" "20250101_120000"])
    by (vm_compute; reflexivity).
  rewrite E1 in H1. rewrite E2 in H2.
  destruct H1 as [H1|[]]. destruct H2 as [H2|[]].
  change (w_strftime Mock.unreachable h1 "%Y%m%d_%H%M%S") with "20250101_120000" in H1.
  change (w_strftime Mock.no_cpf h2 "%Y%m%d_%H%M%S") with "20250101_120000" in H2.
  apply screenshot_path_inj in H1, H2.
  assert (Navigate = FillCpf) by (apply Hinj; congruence).
  discriminate.
Qed.

(** C3, an instance of the theorem on [Mock.no_token]: one screenshot tagged
    [qr_code_not_found], then one tagged [error_screenshot]. *)
Lemma generate_pix_failure_screenshots_witness :
  let o := generate_pix Mock.no_token Mock.self
             "a@b.com" "A B" "1199999999" "12345678900" [] in
  result o = Ok (Some EmptyString)
  /\ length (List.filter (tagged "qr_code_not_found") (screenshots (emitted o))) = 1
  /\ length (List.filter (tagged "error_screenshot") (screenshots (emitted o))) = 1.
Proof.
  destruct (generate_pix_failure_screenshots Mock.no_token Mock.self
              "a@b.com" "A B" "1199999999" "12345678900" [] CaptureQrCode)
    as (Hr & pre & h_err & Hs & _ & Hq).
  - intros tr p. reflexivity.
  - vm_compute. reflexivity.
  - destruct Hq as [h_qr ->]; [vm_compute; discriminate|].
    cbv zeta. rewrite Hs. split; [exact Hr|]. split; reflexivity.
Defined.



(** C5, counterexample.  The second locator matches the link of an existing
    payment, the scroll script raises on it, and the resolver returns
    without having clicked the link: of the two scripts only the scroll
    ran, and it failed. *)
Lemma matched_link_is_not_clicked :
  let o := _handle_existing_pix Mock.stale_link [] in
  result o = Ok tt
  /\ emitted o
     = [ Done (time_sleep 3);
         Failed (find_element By_XPATH
                   "//a[contains(@class, 'btn-primary') and contains(text(), 'Abrir')]");
         Done (find_element By_XPATH "//a[contains(@href, '/payments/thanks')]");
         Done (log INFO "PIX já gerado detectado. Clicando no botão...");
         Failed (execute_script "arguments[0].scrollIntoView(true);" [5]);
         Done (log INFO "Erro ao verificar PIX já gerado: stale element reference") ]
  /\ scripted_clicks (emitted o) = [].
Proof.
  repeat split; vm_compute; reflexivity.
Qed.

(** C5 on [Mock.existing_payment]: the steps up to the finish button return,
    and so does the resolver, followed by the token extraction. *)
Lemma _handle_existing_pix_first_match_witness :
  let o0 := steps_through_finish Mock.existing_payment Mock.self
              "a@b.com" "A B" "1199999999" "12345678900" [] in
  let o := _handle_existing_pix Mock.existing_payment ([] ++ emitted o0) in
  result o0 = Ok tt
  /\ result o = Ok tt
  /\ exists rest,
       emitted (generate_pix Mock.existing_payment Mock.self
                  "a@b.com" "A B" "1199999999" "12345678900" [])
       = emitted o0 ++ emitted o
           ++ emitted (_capture_qr_code Mock.existing_payment
                         (([] ++ emitted o0) ++ emitted o))
           ++ rest.
Proof.
  intros o0 o.
  assert (H0 : result o0 = Ok tt) by (vm_compute; reflexivity).
  split; [exact H0|].
  destruct (_handle_existing_pix_first_match Mock.existing_payment Mock.self
              "a@b.com" "A B" "1199999999" "12345678900" [] H0) as (H1 & H2 & _).
  split; [exact H1 | exact H2].
Defined.

(** The example codec on the bitmap of [Mock.bmp_base64]: one black pixel
    in, and out the 72-byte PNG (signature, IHDR, one stored IDAT, IEND). *)
Example one_pixel_bitmap_as_png :
  exists decoded,
    strict_b64decode Mock.bmp_base64 = Ok decoded
    /\ bmp_decode decoded = Some (mkImage 1 1 [Byte.x00; Byte.x00; Byte.x00])
    /\ png_encode (mkImage 1 1 [Byte.x00; Byte.x00; Byte.x00])
       = [ Byte.x89; Byte.x50; Byte.x4e; Byte.x47; Byte.x0d; Byte.x0a; Byte.x1a;
           Byte.x0a; Byte.x00; Byte.x00; Byte.x00; Byte.x0d; Byte.x49; Byte.x48;
           Byte.x44; Byte.x52; Byte.x00; Byte.x00; Byte.x00; Byte.x01; Byte.x00;
           Byte.x00; Byte.x00; Byte.x01; Byte.x08; Byte.x02; Byte.x00; Byte.x00;
           Byte.x00; Byte.x90; Byte.x77; Byte.x53; Byte.xde; Byte.x00; Byte.x00;
           Byte.x00; Byte.x0f; Byte.x49; Byte.x44; Byte.x41; Byte.x54; Byte.x78;
           Byte.x01; Byte.x01; Byte.x04; Byte.x00; Byte.xfb; Byte.xff; Byte.x00;
           Byte.x00; Byte.x00; Byte.x00; Byte.x00; Byte.x04; Byte.x00; Byte.x01;
           Byte.x65; Byte.x49; Byte.xc3; Byte.x60; Byte.x00; Byte.x00; Byte.x00;
           Byte.x00; Byte.x49; Byte.x45; Byte.x4e; Byte.x44; Byte.xae; Byte.x42;
           Byte.x60; Byte.x82 ].
Proof.
  eexists. split; [vm_compute; reflexivity|]. split; vm_compute; reflexivity.
Qed.



(** C7, counterexample.  The URL names the processing page at every read, the
    token field is there, and [_capture_qr_code] returns the token. *)
Lemma _capture_qr_code_succeeds_while_stalled :
  let o := _capture_qr_code Mock.stalled [] in
  (forall h, exists u, w_current_url Mock.stalled h = Ok u
                       /\ contains "/payment/" u = true)
  /\ url_reads (emitted o) = 2
  /\ result o = Ok (Some Mock.token).
Proof.
  split; [|split].
  - intros h. eexists. split; reflexivity.
  - vm_compute. reflexivity.
  - vm_compute. reflexivity.
Qed.

(** C7, an instance of the theorem on [Mock.stalled]. *)
Lemma _capture_qr_code_ignores_stall_witness :
  url_reads (emitted (_capture_qr_code Mock.stalled [])) = 2
  /\ result (_capture_qr_code Mock.stalled []) = Ok (Some Mock.token).
Proof.
  destruct (_capture_qr_code_ignores_stall Mock.stalled []
              "https://checkout.example/payment/processing"
              "https://checkout.example/payment/processing"
              eq_refl eq_refl eq_refl eq_refl) as [H1 H2].
  split; [exact H1|]. rewrite H2. reflexivity.
Defined.

(** C8, counterexample.  In a whole session on [Mock.happy] the script runs
    once and the navigation to the checkout is not followed by a second run. *)
Lemma patch_not_reinjected_after_navigation :
  let evs := emitted (main Mock.happy (Some "https://checkout.example/c/PPU38") []) in
  length (navigations evs) = 1
  /\ length (List.filter is_patch evs) = 1
  /\ reinjected_after_every_navigation evs = false.
Proof. vm_compute. repeat split. Qed.

(** C8, an instance of the theorem on [Mock.happy]. *)
Lemma patch_runs_once_at_construction_witness :
  exists rest,
    emitted (__init__ Mock.happy (Some "https://checkout.example/c/PPU38")
               true None 10 [])
    = Done (webdriver_Chrome (_create_chrome_options true None))
        :: Done (execute_script remove_webdriver_script [])
        :: rest
    /\ forallb no_patch rest = true.
Proof.
  destruct (patch_runs_once_at_construction Mock.happy
              (Some "https://checkout.example/c/PPU38") true None 10
              Mock.self "a@b.com" "A B" "1199999999" "12345678900"
              "https://checkout.example/" [])
    as (_ & _ & H & _).
  apply (H (mkSelf (Some "https://checkout.example/c/PPU38") 10)).
  vm_compute. reflexivity.
Defined.

(** C9, illustration: reserved characters in a field reach the URL as they
    are. *)
Example checkout_url_is_not_encoded :
  navigations (emitted (generate_pix Mock.happy Mock.self
                          "a@b.com" "A B&x=1" "11 9" "12345678900" []))
  = ["https://checkout.example/c/PPU38?email=a@b.com&name=A B&x=1&phone=11 9"].
Proof. vm_compute. reflexivity. Qed.

(** ** Beyond the claims *)



(** X5. The Chrome arguments: [--headless] is there exactly when [headless]
    is set; a [user-agent=] argument is there exactly for a non-empty user
    agent (an empty one is treated like [None]); the flag against
    automation detection is always there; nothing else varies. *)
Theorem _create_chrome_options_arguments headless ua :
  let args := arguments (_create_chrome_options headless ua) in
  (In "--headless" args <-> headless = true)
  /\ (forall s, In ("user-agent=" +:+ s) args <-> ua = Some s /\ s <> EmptyString)
  /\ In "--disable-blink-features=AutomationControlled" args
  /\ length args = 18 + (if headless then 1 else 0) + (if truthy ua then 1 else 0).
Proof.
  intros args. subst args. unfold _create_chrome_options, basic_args.
  cbn [arguments].
  split; [|split; [|split]].
  - destruct headless, ua as [[|c s]|]; cbn [truthy fmt app]; split;
      try (intros _; reflexivity); try (intros _; simpl; tauto);
      try discriminate.
    all: intros Hin; exfalso; revert Hin; clear; cbn [In String.append];
         intuition discriminate.
  - intros s. destruct headless, ua as [[|c s0]|]; cbn [truthy fmt app]; split.
    all: try (intros [[= <-] Hne]; first [ congruence | simpl; tauto ]).
    all: try (intros [[=] _]).
    all: intros Hin; cbn [In String.append] in Hin;
         repeat destruct Hin as [Hin|Hin]; try discriminate Hin;
         try contradiction.
    all: apply (inj (String.append "user-agent=")) in Hin as <-.
    all: split; [reflexivity|discriminate].
  - destruct headless; simpl; tauto.
  - destruct headless, ua as [[|c s0]|]; reflexivity.
Qed.

Lemma quits_app evs1 evs2 : quits (evs1 ++ evs2) = quits evs1 + quits evs2.
Proof. unfold quits. now rewrite List.filter_app, length_app. Qed.

Lemma quits_none evs : forallb no_quit evs = true -> quits evs = 0.
Proof.
  unfold quits. induction evs as [|ev evs IH]; simpl; [easy|].
  intros [H1 H2]%andb_prop. unfold no_quit in H1.
  destruct (call_of ev); try discriminate H1; now apply IH.
Qed.

Lemma printed_none evs : forallb no_print evs = true -> printed evs = [].
Proof.
  induction evs as [|ev evs IH]; simpl; [easy|].
  intros [H1 H2]%andb_prop. unfold printed in *. simpl.
  rewrite (IH H2). unfold no_print in H1.
  now destruct (call_of ev).
Qed.

Lemma blocking_time_app evs1 evs2 :
  blocking_time (evs1 ++ evs2) = blocking_time evs1 + blocking_time evs2.
Proof. unfold blocking_time. now rewrite map_app, list_sum_app. Qed.

Lemma blocking_bind {A B} (m : M A) (k : A -> M B) n n' h :
  (forall h, blocking_time (emitted (m h)) <= n) ->
  (forall a h, blocking_time (emitted (k a h)) <= n') ->
  blocking_time (emitted (bind m k h)) <= n + n'.
Proof.
  intros Hm Hk. rewrite emitted_bind, blocking_time_app.
  specialize (Hm h). destruct (result (m h)) as [a|e].
  - specialize (Hk a (h ++ emitted (m h))). lia.
  - cbn. lia.
Qed.

Lemma blocking_try {A} (body : M A) handler n n' h :
  (forall h, blocking_time (emitted (body h)) <= n) ->
  (forall e h, blocking_time (emitted (handler e h)) <= n') ->
  blocking_time (emitted (try_except body handler h)) <= n + n'.
Proof.
  intros Hb Hh. specialize (Hb h).
  destruct (result (body h)) as [a|e] eqn:E.
  - rewrite (try_except_ok _ _ _ _ E). lia.
  - rewrite (try_except_raise _ _ _ _ E), emitted_and_then, blocking_time_app.
    specialize (Hh e (h ++ emitted (body h))). lia.
Qed.

Lemma typed_none evs : forallb no_send_keys evs = true -> typed evs = [].
Proof.
  induction evs as [|ev evs IH]; simpl; [easy|].
  intros [H1 H2]%andb_prop. unfold typed in *. simpl.
  rewrite (IH H2). unfold no_send_keys in H1.
  now destruct (call_of ev).
Qed.

Section Extras.

Variable w : World.




Lemma generate_pix_body_split_finish self email name phone cpf h :
  generate_pix_body w self email name phone cpf h
  = bind (steps_before_finish w self email name phone cpf)
      (fun _ =>
         _finish_purchase w self ;;;
         _handle_existing_pix w ;;;
         qr_code <- _capture_qr_code w ;;
         _ <- capture_and_display_qr_image w cpf ;;
         logger_info ("PIX gerado com sucesso para: " +:+ email) ;;;
         ret qr_code) h.
Proof.
  unfold generate_pix_body, steps_before_finish.
  rewrite bind_assoc. apply bind_ext. intros _ h1.
  rewrite bind_assoc. reflexivity.
Qed.

Lemma failing_step_early self email name phone cpf h st :
  failing_step w self email name phone cpf h = Some st ->
  st = Navigate \/ st = FillCpf ->
  exists e, result (steps_before_finish w self email name phone cpf h) = Raise e.
Proof.
  unfold failing_step, steps_before_finish. cbv zeta.
  repeat (rewrite ?result_bind, ?emitted_bind;
          cbn [result emitted logger_info call_total ret];
          repeat rewrite <- app_assoc; cbn [app];
          match goal with
          | |- context [match result ?o with _ => _ end] =>
              lazymatch o with
              | context [match _ with _ => _ end] => fail
              | _ => destruct (result o) eqn:?
              end
          end).
  all: intros [= <-] [?|?]; try discriminate; eauto.
Qed.

Lemma emitted_try_except_raise {A} (body : M A) handler h e :
  result (body h) = Raise e ->
  emitted (try_except body handler h)
  = emitted (body h) ++ emitted (handler e (h ++ emitted (body h))).
Proof. intros H. now rewrite (try_except_raise _ _ _ _ H), emitted_and_then. Qed.

(** A run that fails at step [st] is the run of the steps up to [st]. *)
Lemma failing_step_prefix self email name phone cpf h st :
  failing_step w self email name phone cpf h = Some st ->
  exists e,
    result (steps_up_to w self email name phone cpf st h) = Raise e
    /\ result (generate_pix_body w self email name phone cpf h) = Raise e
    /\ emitted (generate_pix_body w self email name phone cpf h)
       = emitted (steps_up_to w self email name phone cpf st h).
Proof.
  destruct st; unfold failing_step, steps_up_to, generate_pix_body; cbv zeta.
  all: repeat (rewrite ?result_bind, ?emitted_bind;
          cbn [result emitted logger_info call_total ret];
          repeat rewrite <- app_assoc; cbn [app];
          match goal with
          | |- context [match result ?o with _ => _ end] =>
              lazymatch o with
              | context [match _ with _ => _ end] => fail
              | _ => destruct (result o) eqn:?
              end
          end).
  all: intros Hst; try discriminate Hst.
  all: eexists; split; [reflexivity|]; split; [reflexivity|].
  all: rewrite ?app_nil_r; reflexivity.
Qed.

(** X2. A failure stops the run.  When a step raises, [generate_pix] has run
    the steps up to that one and no other; it then logs "Erro ao gerar PIX"
    with the exception's text, takes the screenshot tagged
    [error_screenshot], and does nothing else.  So when the navigation or
    the CPF form fails, no click, script, direct lookup, URL read or
    attribute read is made, and when any step before the token extraction
    fails, nothing of the token extraction or the image capture runs. *)
Theorem generate_pix_fails_fast self email name phone cpf h st :
  failing_step w self email name phone cpf h = Some st ->
  let o := steps_up_to w self email name phone cpf st h in
  let evs := emitted (generate_pix w self email name phone cpf h) in
  exists e,
    result o = Raise e
    /\ (let failed :=
          emitted o ++ [Done (log ERROR ("Erro ao gerar PIX: " +:+ exn_msg e))] in
        evs = failed ++ emitted (_take_screenshot w "error_screenshot" (h ++ failed)))
    /\ (st = Navigate \/ st = FillCpf -> forallb before_finish evs = true)
    /\ (st <> CaptureQrCode -> forallb before_token evs = true).
Proof.
  intros Hst o evs. subst o evs.
  destruct (failing_step_prefix _ _ _ _ _ _ _ Hst) as (e & Hp & He & Hevs).
  destruct (failing_step_results _ _ _ _ _ _ _ _ Hst) as (_ & Hsteps & _).
  exists e. split; [exact Hp|].
  unfold generate_pix. rewrite (emitted_try_except_raise _ _ _ _ He).
  split; [|split].
  - cbv zeta. rewrite Hevs, !emitted_bind.
    cbn [result emitted logger_error call_total ret].
    match goal with
    | |- context [_take_screenshot w ?f ?h'] =>
        destruct (_take_screenshot_never_raises w f h') as [[] ->]
    end.
    rewrite <- !app_assoc. cbn [app]. now rewrite app_nil_r.
  - intros Hearly.
    edestruct failing_step_early as [e' He']; [exact Hst | exact Hearly |].
    rewrite forallb_app. apply andb_true_intro. split.
    + rewrite generate_pix_body_split_finish, emitted_bind, He', app_nil_r.
      assert (H : emits before_finish
                    (steps_before_finish w self email name phone cpf))
        by (unfold steps_before_finish; emits_tac).
      apply H.
    + match goal with
      | |- forallb _ (emitted (?m ?h')) = true =>
          assert (H : emits before_finish m) by emits_tac; apply H
      end.
  - intros Hne. destruct (Hsteps Hne) as [e' He'].
    rewrite forallb_app. apply andb_true_intro. split.
    + rewrite generate_pix_body_split, emitted_bind, He', app_nil_r.
      assert (H : emits before_token
                    (steps_before_token w self email name phone cpf))
        by (unfold steps_before_token; emits_tac).
      apply H.
    + match goal with
      | |- forallb _ (emitted (?m ?h')) = true =>
          assert (H : emits before_token m) by emits_tac; apply H
      end.
Qed.

(** X3. [_take_screenshot] always returns.  It asks for at most one
    screenshot, named [images/prints/{filename}_{timestamp}.png]; when
    [save_screenshot] returns (whatever it returns) the last event is the
    INFO line "Screenshot salvo", and when a call raises the last event is
    the ERROR line carrying the exception's text. *)
Theorem _take_screenshot_best_effort filename h :
  let o := _take_screenshot w filename h in
  let path := screenshot_path filename (w_strftime w h "%Y%m%d_%H%M%S") in
  result o = Ok tt
  /\ (screenshots (emitted o) = [] \/ screenshots (emitted o) = [path])
  /\ (In (Done (save_screenshot path)) (emitted o) ->
      last (emitted o) = Some (Done (log INFO ("Screenshot salvo: " +:+ path))))
  /\ (existsb raised (emitted o) = true ->
      exists e, last (emitted o)
                = Some (Done (log ERROR ("Erro ao salvar screenshot: " +:+ str e)))).
Proof.
  intros o path. subst o path.
  run_out (_take_screenshot w filename h).
  all: split; [reflexivity|].
  all: split; [first [left; reflexivity | right; reflexivity]|].
  all: split;
    [ first [ intros _; reflexivity
            | intros Hin; exfalso; revert Hin; clear; simpl; intuition discriminate ]
    | first [ discriminate | intros _; eexists; reflexivity ] ].
Qed.


(** X6. [_create_logs_dir] writes no file but the log file, writes it empty,
    and only when an existence check on it said no; on a tree where
    everything exists it only checks: no directory is created and nothing
    is written. *)
Theorem _create_logs_dir_keeps_existing h :
  let o := _create_logs_dir w h in
  let log_file := "logs/generate_qrcode_pix.log" in
  (forall path data,
     written o !! path = Some data ->
     path = log_file /\ data = []
     /\ exists h', w_path_exists w h' log_file = false)
  /\ ((forall tr path, w_path_exists w tr path = true) ->
      result o = Ok tt
      /\ emitted o = [Done (os_path_exists "logs"); Done (os_path_exists "images");
                      Done (os_path_exists "images/prints");
                      Done (os_path_exists log_file)]
      /\ written o = ∅).
Proof.
  intros o log_file. subst o log_file.
  run_out (_create_logs_dir w h).
  all: rewrite ?(left_id_L ∅ (∪)), ?(right_id_L ∅ (∪)).
  all: repeat match goal with
              | H : negb _ = true |- _ => apply negb_true_iff in H
              | H : negb _ = false |- _ => apply negb_false_iff in H
              end.
  all: split.
  all: try (intros path data Hl;
      first [ rewrite lookup_empty in Hl; discriminate Hl
            | apply lookup_singleton_Some in Hl as [<- <-];
              split; [reflexivity|]; split; [reflexivity|]; eexists; eassumption ]).
  all: intros Hex;
    first [ match goal with
            | H : w_path_exists w _ _ = false |- _ =>
                rewrite Hex in H; discriminate H
            end
          | split; [reflexivity|]; split; reflexivity ].
Qed.

(** X7. When the browser cannot be launched the constructor raises that
    error having done nothing else. *)
Theorem __init___launch_failure base headless ua tmo h e :
  w_Chrome w h (_create_chrome_options headless ua) = Raise e ->
  let o := __init__ w base headless ua tmo h in
  result o = Raise e
  /\ emitted o = [Failed (webdriver_Chrome (_create_chrome_options headless ua))]
  /\ written o = ∅.
Proof.
  intros He o. subst o.
  run_out (__init__ w base headless ua tmo h).
  all: try discriminate He.
  injection He as ->. repeat split.
Qed.

Lemma __init___no_quit base headless ua tmo :
  emits no_quit (__init__ w base headless ua tmo).
Proof. emits_tac. Qed.

Lemma close_shape h :
  (result (close w h) = Ok tt
   /\ emitted (close w h) = [Done driver_quit; Done (log INFO "Navegador fechado")])
  \/ (exists e, result (close w h) = Raise e
                /\ emitted (close w h) = [Failed driver_quit]).
Proof.
  run_out (close w h); [left|right; eexists]; split; reflexivity.
Qed.

(** X8. [main]: when the constructor raises, the error propagates and the
    browser is never quit; when it returns, [driver.quit()] is called exactly
    once, after everything else, followed only by its log line. *)
Theorem main_releases_browser env_url h :
  let config := Config_init env_url in
  let o0 := __init__ w (get_perfectpay_checkout_url config) true
              (Some (get_user_agent config)) 10 h in
  let o := main w env_url h in
  match result o0 with
  | Raise e => result o = Raise e /\ emitted o = emitted o0 /\ quits (emitted o) = 0
  | Ok _ =>
      quits (emitted o) = 1
      /\ exists pre,
           quits pre = 0
           /\ (emitted o = pre ++ [Done driver_quit; Done (log INFO "Navegador fechado")]
               \/ emitted o = pre ++ [Failed driver_quit])
  end.
Proof.
  intros config o0 o. subst o. unfold main. fold config.
  pose proof (__init___no_quit (get_perfectpay_checkout_url config) true
                (Some (get_user_agent config)) 10 h) as Hq0.
  fold o0 in Hq0.
  destruct (result o0) as [gen|e] eqn:E0.
  - unfold o0 in E0. rewrite (bind_ok _ _ _ _ E0), emitted_and_then. fold o0.
    set (h0 := h ++ emitted o0).
    match goal with
    | |- context [try_finally ?b (close w) h0] =>
        assert (Hb : emits no_quit b) by emits_tac;
        specialize (Hb h0); unfold try_finally, and_then;
        destruct (b h0) as [rb evb fb]
    end.
    cbn [emitted] in Hb.
    assert (Hpre : quits (emitted o0 ++ evb) = 0)
      by (rewrite quits_app, (quits_none _ Hq0), (quits_none _ Hb); reflexivity).
    destruct (close_shape (h0 ++ evb)) as [[Hr He]|[e [Hr He]]];
      destruct (close w (h0 ++ evb)) as [rc evc fc]; cbn [result emitted] in *;
      subst rc evc; cbn [emitted].
    + split.
      * rewrite app_assoc, quits_app, Hpre. reflexivity.
      * exists (emitted o0 ++ evb). split; [exact Hpre|]. left.
        now rewrite app_assoc.
    + split.
      * rewrite app_assoc, quits_app, Hpre. reflexivity.
      * exists (emitted o0 ++ evb). split; [exact Hpre|]. right.
        now rewrite app_assoc.
  - unfold o0 in E0. rewrite (bind_raise _ _ _ _ E0). fold o0.
    cbn [result emitted]. repeat split. now apply quits_none.
Qed.

Lemma close_shape_printed h :
  omap (fun ev => match call_of ev with print l => Some l | _ => None end)
    (emitted (close w h)) = [].
Proof.
  assert (H : emits no_print (close w)) by emits_tac.
  apply (printed_none _ (H h)).
Qed.

(** X9. [main] prints, after whatever [generate_pix] printed, the token line
    for a non-empty token and the failure line for [None] or the empty
    string.  When that print returns nothing else is printed; when it
    raises, the line "Erro: ..." with the exception's text follows. *)
Theorem main_prints_outcome env_url h gen :
  let o0 := __init__ w env_url true
              (Some "Mozilla/5.0 (Windows NT 10.0; Win64; x64) AppleWebKit/537.36 (KHTML, like Gecko) Chrome/138.0.0.0 Safari/537.36 Edg/138.0.0.0")
              10 h in
  let o1 := generate_pix w gen "iago.heitor.souza@inglesasset.com.br"
              "Iago Heitor Souza" "95997984584" "25252856974" (h ++ emitted o0) in
  result o0 = Ok gen ->
  exists qr_code,
    result o1 = Ok qr_code
    /\ let line := match qr_code with
                   | Some (String c s) => "QR Code gerado: " +:+ String c s
                   | _ => "Falha ao gerar QR Code"
                   end in
       printed (emitted (main w env_url h))
       = printed (emitted o1)
           ++ line :: match w_print w ((h ++ emitted o0) ++ emitted o1) line with
                      | Ok _ => []
                      | Raise e => ["Erro: " +:+ exn_msg e]
                      end.
Proof.
  intros o0 o1 E0.
  destruct (generate_pix_never_raises w gen "iago.heitor.souza@inglesasset.com.br"
              "Iago Heitor Souza" "95997984584" "25252856974" (h ++ emitted o0))
    as [qr_code E1].
  fold o1 in E1. exists qr_code. split; [exact E1|]. cbv zeta.
  assert (Hp0 : printed (emitted o0) = [])
    by (apply printed_none;
        assert (H : emits no_print
                      (__init__ w env_url true
                         (Some (get_user_agent (Config_init env_url))) 10))
          by emits_tac; apply H).
  unfold main. change (get_perfectpay_checkout_url (Config_init env_url)) with env_url.
  change (get_user_agent (Config_init env_url))
    with "Mozilla/5.0 (Windows NT 10.0; Win64; x64) AppleWebKit/537.36 (KHTML, like Gecko) Chrome/138.0.0.0 Safari/537.36 Edg/138.0.0.0".
  cbv zeta. unfold printed in *.
  rewrite omap_emitted_bind. fold o0. rewrite Hp0, E0. cbn [app].
  unfold try_finally, and_then.
  match goal with
  | |- context [try_except ?b ?hd (h ++ emitted o0)] =>
      pose proof (close_shape_printed ((h ++ emitted o0)
                                      ++ emitted (try_except b hd (h ++ emitted o0)))) as Hc;
      assert (Hb : omap (fun ev => match call_of ev with print l => Some l | _ => None end)
                     (emitted (try_except b hd (h ++ emitted o0)))
                   = omap (fun ev => match call_of ev with print l => Some l | _ => None end)
                       (emitted o1)
                       ++ (match qr_code with
                           | Some (String c s) => "QR Code gerado: " +:+ String c s
                           | _ => "Falha ao gerar QR Code"
                           end)
                       :: match w_print w ((h ++ emitted o0) ++ emitted o1)
                                  (match qr_code with
                                   | Some (String c s) => "QR Code gerado: " +:+ String c s
                                   | _ => "Falha ao gerar QR Code"
                                   end) with
                          | Ok _ => []
                          | Raise e => ["Erro: " +:+ exn_msg e]
                          end);
      [| destruct (try_except b hd (h ++ emitted o0)) as [rb evb fb] ]
  end.
  - rewrite omap_emitted_try, omap_emitted_bind, result_bind. fold o1. rewrite E1.
    destruct qr_code as [[|c s]|]; cbn [truthy fmt]; unfold py_print, call;
      match goal with
      | |- context [w_print w ?hh ?l] => destruct (w_print w hh l) eqn:?
      end; cbn [result emitted omap list_omap call_of app];
      try (now rewrite app_nil_r).
    all: match goal with
         | |- context [w_print w ?hh ?l] => destruct (w_print w hh l) eqn:?
         end; cbn [result emitted omap list_omap call_of app];
         rewrite <- ?app_assoc; reflexivity.
  - cbn [emitted] in *. rewrite <- Hb.
    destruct (close w ((h ++ emitted o0) ++ evb)) as [[?|?] evc fc];
      cbn [emitted] in *; rewrite omap_app, Hc; now rewrite app_nil_r.
Qed.

Ltac blocking_leaf := unfold blocking_time; cbn [map list_sum blocking call_of]; lia.

Lemma _navigate_to_checkout_blocking self email name phone h :
  blocking_time (emitted (_navigate_to_checkout w self email name phone h)) <= 1.
Proof. run_out (_navigate_to_checkout w self email name phone h); blocking_leaf. Qed.

Lemma _fill_cpf_field_blocking self cpf h :
  blocking_time (emitted (_fill_cpf_field w self cpf h)) <= timeout self.
Proof. run_out (_fill_cpf_field w self cpf h); blocking_leaf. Qed.

Lemma _finish_purchase_blocking self h :
  blocking_time (emitted (_finish_purchase w self h)) <= timeout self + 1.
Proof. run_out (_finish_purchase w self h); blocking_leaf. Qed.

Lemma _handle_existing_pix_blocking h :
  blocking_time (emitted (_handle_existing_pix w h)) <= 7.
Proof. run_out (_handle_existing_pix w h); blocking_leaf. Qed.

Lemma _take_screenshot_blocking filename h :
  blocking_time (emitted (_take_screenshot w filename h)) <= 0.
Proof. run_out (_take_screenshot w filename h); blocking_leaf. Qed.

Lemma _capture_qr_code_blocking h :
  blocking_time (emitted (_capture_qr_code w h)) <= 23.
Proof. run_out (_capture_qr_code w h); blocking_leaf. Qed.

Lemma capture_and_display_qr_image_blocking cpf h :
  blocking_time (emitted (capture_and_display_qr_image w cpf h)) <= 15.
Proof. run_out (capture_and_display_qr_image w cpf h); blocking_leaf. Qed.

(** X10. The fixed delays and the bounds of the waits of one [generate_pix]
    call add up to at most twice the default timeout plus 47 seconds. *)
Theorem generate_pix_blocking_time self email name phone cpf h :
  blocking_time (emitted (generate_pix w self email name phone cpf h))
  <= 2 * timeout self + 47.
Proof.
  unfold generate_pix, generate_pix_body.
  eapply Nat.le_trans.
  - eapply blocking_try.
    + intros h0. eapply blocking_bind; [intros h1; exact (Nat.le_refl 0)|intros _ h1].
      eapply blocking_bind; [apply _navigate_to_checkout_blocking|intros _ h2].
      eapply blocking_bind; [apply _fill_cpf_field_blocking|intros _ h3].
      eapply blocking_bind; [apply _finish_purchase_blocking|intros _ h4].
      eapply blocking_bind; [apply _handle_existing_pix_blocking|intros _ h5].
      eapply blocking_bind; [apply _capture_qr_code_blocking|intros qr h6].
      eapply blocking_bind; [apply capture_and_display_qr_image_blocking|intros _ h7].
      eapply blocking_bind; [intros h8; exact (Nat.le_refl 0)|intros _ h8].
      exact (Nat.le_refl 0).
    + intros e h0.
      eapply blocking_bind; [intros h1; exact (Nat.le_refl 0)|intros _ h1].
      eapply blocking_bind; [apply _take_screenshot_blocking|intros _ h2].
      exact (Nat.le_refl 0).
  - lia.
Qed.

(** X12. For any list of locators: when every lookup raises, the loop
    returns [None] after probing each locator once, in order. *)
Theorem find_pix_button_none selectors h :
  (forall tr sel, In sel selectors ->
     exists e, w_find_element w tr By_XPATH sel = Raise e) ->
  result (find_pix_button w selectors h) = Ok None
  /\ emitted (find_pix_button w selectors h)
     = map (fun sel => Failed (find_element By_XPATH sel)) selectors.
Proof.
  revert h. induction selectors as [|sel rest IH]; intros h Hall.
  - split; reflexivity.
  - destruct (Hall h sel (or_introl eq_refl)) as [e He].
    destruct (IH (h ++ [Failed (find_element By_XPATH sel)])) as [IHr IHe].
    { intros tr s Hs. apply Hall. now right. }
    cbn [find_pix_button]. unfold try_except, bind, driver_find_element, call.
    rewrite He. cbn [result emitted written].
    rewrite result_and_then, emitted_and_then, IHr, IHe. split; reflexivity.
Qed.

(** X11. For any list of locators: when the lookups of the first [k] raise
    and the next one returns an element, the loop returns that element and
    has probed exactly those [k + 1] locators, in order. *)
Theorem find_pix_button_first_match selectors k sel btn h :
  selectors !! k = Some sel ->
  (forall tr s, In s (take k selectors) ->
     exists e, w_find_element w tr By_XPATH s = Raise e) ->
  (forall tr, w_find_element w tr By_XPATH sel = Ok btn) ->
  result (find_pix_button w selectors h) = Ok (Some btn)
  /\ emitted (find_pix_button w selectors h)
     = map (fun s => Failed (find_element By_XPATH s)) (take k selectors)
         ++ [Done (find_element By_XPATH sel)].
Proof.
  revert k h. induction selectors as [|s0 rest IH]; intros k h Hk Hfail Hok.
  - discriminate Hk.
  - destruct k as [|k].
    + injection Hk as ->.
      cbn [find_pix_button]. unfold try_except, bind, driver_find_element, call.
      rewrite Hok. split; reflexivity.
    + cbn [take] in Hfail.
      destruct (Hfail h s0 (or_introl eq_refl)) as [e He].
      destruct (IH k (h ++ [Failed (find_element By_XPATH s0)]) Hk) as [IHr IHe];
        [intros tr s Hs; apply Hfail; now right | exact Hok |].
      cbn [find_pix_button]. unfold try_except, bind, driver_find_element, call.
      rewrite He. cbn [result emitted written].
      rewrite result_and_then, emitted_and_then, IHr, IHe. split; reflexivity.
Qed.

(** X13. An image source that starts with [data:image] but has no comma
    makes [split(",")[1]] raise inside the [try]: the image capture waits
    for the image, reads its [src], logs "list index out of range" at ERROR
    level and returns [None].  It saves no image: the only file touched is
    the log file, which receives the two log lines. *)
Theorem capture_and_display_qr_image_without_comma cpf h qr_image rest :
  let src := "data:image" +:+ rest in
  let image_locator :=
    presence_of_element_located (By_CSS_SELECTOR, "img[src*='data:image']") in
  let h1 := h ++ [Done (log INFO "Capturando imagem do QR Code...")] in
  w_wait_until w h1 15 image_locator = Ok qr_image ->
  w_get_attribute w (h1 ++ [Done (wait_until 15 image_locator)]) qr_image "src"
  = Ok (Some src) ->
  ~ In ","%char (list_ascii_of_string src) ->
  let o := capture_and_display_qr_image w cpf h in
  result o = Ok None
  /\ emitted o
     = [ Done (log INFO "Capturando imagem do QR Code...");
         Done (wait_until 15 image_locator);
         Done (get_attribute qr_image "src");
         Done (log ERROR "Erro ao capturar e salvar imagem do QR Code: list index out of range") ]
  /\ written o = ∅
  /\ files_touched (emitted o) = {[ "logs/generate_qrcode_pix.log" ]}.
Proof.
  intros src image_locator h1 Hw Ha Hc o.
  assert (Hp : startswith "data:image" src = true)
    by (apply startswith_append; now exists rest).
  assert (He : result o = Ok None
               /\ emitted o
                  = [ Done (log INFO "Capturando imagem do QR Code...");
                      Done (wait_until 15 image_locator);
                      Done (get_attribute qr_image "src");
                      Done (log ERROR "Erro ao capturar e salvar imagem do QR Code: list index out of range") ]
               /\ written o = ∅).
  { clearbody src. subst o h1 image_locator.
    run_out (capture_and_display_qr_image w cpf h).
    all: try discriminate Hw; injection Hw as ->.
    all: repeat match goal with
                | H : ?x = _, H' : ?x = _ |- _ =>
                    rewrite H in H'; inversion H'; subst; clear H'
                end.
    all: cbn [fmt] in *.
    all: destruct src as [|c src]; [discriminate Hp|].
    all: cbn [truthy negb orb] in *.
    all: rewrite ?Hp in *; try discriminate.
    all: match goal with
         | H : nth_error (split _ _) 1 = _ |- _ =>
             rewrite (split_one_field _ _ Hc) in H; try discriminate H
         end.
    split; [reflexivity|]. split; [reflexivity|].
    now rewrite ?(left_id_L ∅ (∪)), ?(right_id_L ∅ (∪)). }
  destruct He as (Hr & He & Hf). split; [exact Hr|]. split; [exact He|].
  split; [exact Hf|]. rewrite He. unfold files_touched. cbn. set_solver.
Qed.

(** X14. The image capture logs, waits for the image, reads an attribute,
    reads the clock, saves the image and prints, and makes no other call.
    So the files it touches are the log file, through its log lines, and
    [images/qrcode_pix_{cpf}_{timestamp}.png], through [image.save]; the
    latter is the only file it hands content to, and it holds what
    [image.save] wrote. *)
Theorem capture_and_display_qr_image_writes_one_file cpf h :
  let o := capture_and_display_qr_image w cpf h in
  (forall ev, In ev (emitted o) ->
     match call_of ev with
     | log _ _ | wait_until _ _ | get_attribute _ _ | time_strftime _ | print _ => True
     | image_save _ path =>
         exists h', path = "images/qrcode_pix_" +:+ cpf +:+ "_"
                             +:+ w_strftime w h' "%Y%m%d_%H%M%S" +:+ ".png"
     | _ => False
     end)
  /\ (forall path, path ∈ files_touched (emitted o) ->
     path = "logs/generate_qrcode_pix.log"
     \/ exists h', path = "images/qrcode_pix_" +:+ cpf +:+ "_"
                            +:+ w_strftime w h' "%Y%m%d_%H%M%S" +:+ ".png")
  /\ (forall path data, written o !! path = Some data ->
        exists h' image,
          path = "images/qrcode_pix_" +:+ cpf +:+ "_"
                   +:+ w_strftime w h' "%Y%m%d_%H%M%S" +:+ ".png"
          /\ In (Done (image_save image path)) (emitted o)
          /\ w_image_save w (h' ++ [Done (time_strftime "%Y%m%d_%H%M%S")]) image path
             = Ok data).
Proof.
  intros o. subst o. split; [|split].
  - run_out (capture_and_display_qr_image w cpf h).
    all: intros ev Hin; repeat destruct Hin as [<-|Hin]; try contradiction.
    all: cbn [call_of]; unfold qrcode_path; eauto.
  - run_out (capture_and_display_qr_image w cpf h).
    all: intros path; unfold files_touched; cbn -[String.append pretty];
         rewrite ?elem_of_union, ?elem_of_singleton, ?elem_of_empty.
    all: unfold qrcode_path; intuition eauto.
  - run_out (capture_and_display_qr_image w cpf h).
    all: rewrite ?(left_id_L ∅ (∪)), ?(right_id_L ∅ (∪)).
    all: intros path data Hl;
      first [ rewrite lookup_empty in Hl; discriminate Hl
            | apply lookup_singleton_Some in Hl as [<- <-];
              eexists _, _; split; [reflexivity|]; split;
              [simpl; auto 20 | eassumption] ].
Qed.

(** X15. [generate_pix], [navigate_to] and [wait_for_element] never call
    [driver.quit()]: the browser stays open until [close]. *)
Theorem only_close_quits self email name phone cpf selector by_ tmo url :
  emits no_quit (generate_pix w self email name phone cpf)
  /\ emits no_quit (navigate_to w url)
  /\ emits no_quit (wait_for_element w self selector by_ tmo).
Proof. repeat split; emits_tac. Qed.

Lemma _fill_cpf_field_typed self cpf h :
  let o := _fill_cpf_field w self cpf h in
  match w_wait_until w h (timeout self)
          (presence_of_element_located (By_ID, "identification-number")) with
  | Ok cpf_field => typed (emitted o) = [(cpf_field, cpf)]
  | Raise e => typed (emitted o) = [] /\ result o = Raise e
  end.
Proof.
  intros o. subst o.
  run_out (_fill_cpf_field w self cpf h); repeat split.
Qed.

(** X16. [generate_pix] sends keys at most once: the CPF as given, to the
    element the wait for [identification-number] returned. *)
Theorem generate_pix_types_cpf_once self email name phone cpf h :
  let evs := emitted (generate_pix w self email name phone cpf h) in
  typed evs = []
  \/ exists cpf_field h',
       w_wait_until w h' (timeout self)
         (presence_of_element_located (By_ID, "identification-number")) = Ok cpf_field
       /\ typed evs = [(cpf_field, cpf)].
Proof.
  intros evs. subst evs.
  unfold generate_pix, typed.
  rewrite omap_emitted_try.
  assert (Hh : forall e h',
             omap (fun ev => match call_of ev with
                             | send_keys e keys => Some (e, keys) | _ => None end)
               (emitted ((logger_error ("Erro ao gerar PIX: " +:+ str e) ;;;
                          _take_screenshot w "error_screenshot" ;;;
                          ret (Some EmptyString))%py h')) = []).
  { intros e h'. apply typed_none.
    match goal with
    | |- forallb _ (emitted (?m ?hh)) = true =>
        assert (H : emits no_send_keys m) by emits_tac; apply H
    end. }
  assert (Hb : omap (fun ev => match call_of ev with
                               | send_keys e keys => Some (e, keys) | _ => None end)
                 (emitted (generate_pix_body w self email name phone cpf h)) = []
               \/ exists cpf_field h',
                    w_wait_until w h' (timeout self)
                      (presence_of_element_located (By_ID, "identification-number"))
                    = Ok cpf_field
                    /\ omap (fun ev => match call_of ev with
                                       | send_keys e keys => Some (e, keys)
                                       | _ => None end)
                         (emitted (generate_pix_body w self email name phone cpf h))
                       = [(cpf_field, cpf)]).
  { unfold generate_pix_body. rewrite 3!omap_emitted_bind.
    cbn [result emitted logger_info call_total omap list_omap call_of app].
    set (h1 := h ++ [Done (log INFO ("Iniciando geração de PIX para: " +:+ email))]).
    assert (Hn : omap (fun ev => match call_of ev with
                                 | send_keys e keys => Some (e, keys) | _ => None end)
                   (emitted (_navigate_to_checkout w self email name phone h1)) = []).
    { apply typed_none.
      assert (H : emits no_send_keys (_navigate_to_checkout w self email name phone))
        by emits_tac.
      apply H. }
    rewrite Hn. cbn [app].
    destruct (result (_navigate_to_checkout w self email name phone h1));
      [|now left].
    set (h2 := h1 ++ emitted (_navigate_to_checkout w self email name phone h1)).
    pose proof (_fill_cpf_field_typed self cpf h2) as Hf. cbv zeta in Hf.
    unfold typed in Hf.
    match goal with
    | |- context [match result (_fill_cpf_field w self cpf h2) with
                  | Ok _ => omap ?g (emitted (?m ?hh)) | Raise _ => [] end] =>
        assert (Hrest : omap g (emitted (m hh)) = [])
          by (apply typed_none;
              assert (H : emits no_send_keys m) by emits_tac; apply H);
        rewrite Hrest
    end.
    destruct (w_wait_until w h2 (timeout self) _) as [cpf_field|e] eqn:Ew.
    - right. exists cpf_field, h2. split; [exact Ew|].
      rewrite Hf. now destruct (result (_fill_cpf_field w self cpf h2)).
    - left. destruct Hf as [-> _].
      now destruct (result (_fill_cpf_field w self cpf h2)). }
  destruct (result (generate_pix_body w self email name phone cpf h)) as [?|e].
  - rewrite app_nil_r. exact Hb.
  - rewrite Hh, app_nil_r. exact Hb.
Qed.

(** X17. When the URL read after the first delay has no [/payment/],
    [_capture_qr_code] reads the URL once and goes straight to the wait for
    the token field. *)
Theorem _capture_qr_code_without_stall h url :
  w_current_url w (h ++ [Done (time_sleep 3)]) = Ok url ->
  contains "/payment/" url = false ->
  let o := _capture_qr_code w h in
  url_reads (emitted o) = 1
  /\ exists ev rest,
       emitted o = Done (time_sleep 3) :: Done current_url :: ev :: rest
       /\ call_of ev = wait_until 15 (presence_of_element_located (By_ID, "qrCode")).
Proof.
  intros Hu Hc o. subst o.
  run_out (_capture_qr_code w h).
  all: try discriminate Hu; injection Hu as ->.
  all: try congruence.
  all: split; [reflexivity|]; eexists _, _; split; reflexivity.
Qed.

(** X18. [_capture_qr_code] reads the URL at most twice; when the first read
    raises, that exception leaves the step as it is, without the
    [qr_code_not_found] screenshot. *)
Theorem _capture_qr_code_reads_url_at_most_twice h :
  url_reads (emitted (_capture_qr_code w h)) <= 2
  /\ (forall e, w_current_url w (h ++ [Done (time_sleep 3)]) = Raise e ->
      result (_capture_qr_code w h) = Raise e
      /\ screenshots (emitted (_capture_qr_code w h)) = []).
Proof.
  run_out (_capture_qr_code w h).
  all: split; [simpl; lia|].
  all: intros ? He; try discriminate He; injection He as <-; split; reflexivity.
Qed.

End Extras.

(** ** Instances on the example worlds *)

(** X2 on [Mock.no_cpf]: the run stops at the CPF form. *)
Lemma generate_pix_fails_fast_witness :
  failing_step Mock.no_cpf Mock.self "a@b.com" "A B" "1199999999" "12345678900" []
  = Some FillCpf
  /\ exists e,
       result (steps_up_to Mock.no_cpf Mock.self
                 "a@b.com" "A B" "1199999999" "12345678900" FillCpf []) = Raise e
       /\ forallb before_finish
            (emitted (generate_pix Mock.no_cpf Mock.self
                        "a@b.com" "A B" "1199999999" "12345678900" [])) = true.
Proof.
  assert (Hst : failing_step Mock.no_cpf Mock.self
                  "a@b.com" "A B" "1199999999" "12345678900" [] = Some FillCpf)
    by (vm_compute; reflexivity).
  split; [exact Hst|].
  destruct (generate_pix_fails_fast Mock.no_cpf Mock.self
              "a@b.com" "A B" "1199999999" "12345678900" [] FillCpf Hst)
    as (e & H1 & _ & H2 & _).
  exists e. split; [exact H1|]. apply H2. right. reflexivity.
Defined.

(** X3 on [Mock.happy]. *)
Lemma _take_screenshot_best_effort_witness :
  last (emitted (_take_screenshot Mock.happy "error_screenshot" []))
  = Some (Done (log INFO
       "Screenshot salvo: images/prints/error_screenshot_20250101_120000.png")).
Proof.
  destruct (_take_screenshot_best_effort Mock.happy "error_screenshot" [])
    as (_ & _ & H & _).
  apply H. vm_compute. auto 10.
Defined.


(** X6 on [Mock.happy], where every path exists. *)
Lemma _create_logs_dir_keeps_existing_witness :
  result (_create_logs_dir Mock.happy []) = Ok tt
  /\ written (_create_logs_dir Mock.happy []) = ∅.
Proof.
  destruct (_create_logs_dir_keeps_existing Mock.happy []) as [_ H].
  destruct H as (Hr & _ & Hw).
  - intros tr path. reflexivity.
  - split; [exact Hr | exact Hw].
Defined.

(** X7 on [Mock.no_browser]. *)
Lemma __init___launch_failure_witness :
  emitted (__init__ Mock.no_browser None true None 10 [])
  = [Failed (webdriver_Chrome (_create_chrome_options true None))].
Proof.
  destruct (__init___launch_failure Mock.no_browser None true None 10 []
              (mkExn WebDriverException "chromedriver not found"))
    as (_ & H & _).
  - reflexivity.
  - exact H.
Defined.

(** X9 on [Mock.happy]: the last line printed is the token line. *)
Lemma main_prints_outcome_witness :
  last (printed (emitted (main Mock.happy None [])))
  = Some ("QR Code gerado: " +:+ Mock.token).
Proof.
  destruct (main_prints_outcome Mock.happy None [] (mkSelf None 10))
    as (qr_code & H1 & H2).
  - vm_compute. reflexivity.
  - vm_compute in H1. injection H1 as <-.
    cbv zeta in H2. rewrite H2. vm_compute. reflexivity.
Defined.

(** X11 on [Mock.existing_payment]: the second locator matches. *)
Lemma find_pix_button_first_match_witness :
  result (find_pix_button Mock.existing_payment pix_selectors []) = Ok (Some 5)
  /\ lookups (emitted (find_pix_button Mock.existing_payment pix_selectors []))
     = [(By_XPATH, "//a[contains(@class, 'btn-primary') and contains(text(), 'Abrir')]");
        (By_XPATH, "//a[contains(@href, '/payments/thanks')]")].
Proof.
  destruct (find_pix_button_first_match Mock.existing_payment pix_selectors 1
              "//a[contains(@href, '/payments/thanks')]" 5 [])
    as [Hr He].
  - reflexivity.
  - intros tr s [<-|[]]. eexists. reflexivity.
  - intros tr. reflexivity.
  - split; [exact Hr|]. rewrite He. reflexivity.
Defined.

(** X12 on [Mock.happy]: no locator matches. *)
Lemma find_pix_button_none_witness :
  result (find_pix_button Mock.happy pix_selectors []) = Ok None.
Proof.
  destruct (find_pix_button_none Mock.happy pix_selectors []) as [H _].
  - intros tr sel _. eexists. reflexivity.
  - exact H.
Defined.

(** X13 on [Mock.bare_src]. *)
Lemma capture_and_display_qr_image_without_comma_witness :
  let o := capture_and_display_qr_image Mock.bare_src "12345678900" [] in
  result o = Ok None
  /\ files_touched (emitted o) = {[ "logs/generate_qrcode_pix.log" ]}.
Proof.
  intros o.
  destruct (capture_and_display_qr_image_without_comma Mock.bare_src
              "12345678900" [] 4 "/png;base64") as (H1 & _ & _ & H2).
  - reflexivity.
  - reflexivity.
  - simpl. intuition discriminate.
  - split; [exact H1 | exact H2].
Defined.

(** X14 on [Mock.happy]: the file saved holds what [image.save] wrote. *)
Lemma capture_and_display_qr_image_writes_one_file_witness :
  let o := capture_and_display_qr_image Mock.happy "12345678900" [] in
  let path := "images/qrcode_pix_12345678900_20250101_120000.png" in
  exists data h' image,
    written o !! path = Some data
    /\ In (Done (image_save image path)) (emitted o)
    /\ w_image_save Mock.happy (h' ++ [Done (time_strftime "%Y%m%d_%H%M%S")])
         image path = Ok data.
Proof.
  intros o path.
  destruct (written o !! path) as [data|] eqn:Hl; [|vm_compute in Hl; discriminate Hl].
  destruct (capture_and_display_qr_image_writes_one_file Mock.happy "12345678900" [])
    as (_ & _ & H).
  destruct (H path data Hl) as (h' & image & _ & Hin & Hs).
  exists data, h', image. split; [reflexivity|]. split; [exact Hin | exact Hs].
Defined.

(** X17 on [Mock.happy]. *)
Lemma _capture_qr_code_without_stall_witness :
  url_reads (emitted (_capture_qr_code Mock.happy [])) = 1.
Proof.
  destruct (_capture_qr_code_without_stall Mock.happy []
              "https://checkout.example/pix/9f3a") as [H _].
  - reflexivity.
  - reflexivity.
  - exact H.
Defined.

(** X18 on [Mock.session_lost]. *)
Lemma _capture_qr_code_reads_url_at_most_twice_witness :
  result (_capture_qr_code Mock.session_lost [])
  = Raise (mkExn WebDriverException "invalid session id")
  /\ screenshots (emitted (_capture_qr_code Mock.session_lost [])) = [].
Proof.
  destruct (_capture_qr_code_reads_url_at_most_twice Mock.session_lost [])
    as [_ H].
  apply H. reflexivity.
Defined.
